(** * Coin Flip Simulator: a shallow embedding of [main.c]

    The program keeps two globals, [flip_results] (a heap array of [int])
    and [num_flips], and drives them from an interactive menu.  The
    embedding threads an explicit [world] (globals, heap, standard
    streams, the pseudo-random generator and the allocator) through a
    small state-and-outcome monad, and keeps the functions of the source
    under their own names. *)

From stdpp Require Import base numbers list strings.

Local Open Scope Z_scope.

(** ** Constants of the source *)

Definition MAX_FLIPS : Z := 100000.
Definition MIN_FLIPS : Z := 1.
Definition SEQUENCE_LENGTH : Z := 5.
Definition HEADS : Z := 0.
Definition TAILS : Z := 1.
Definition PAUSE_INTERVAL : Z := 20.

(** Constants of the C library the source relies on. *)
Definition INT_MAX : Z := 2147483647.
Definition INT_MIN : Z := -2147483648.
Definition EOF : Z := -1.
Definition EXIT_FAILURE : Z := 1.
Definition sizeof_int : Z := 4.
Definition LONG_MAX : Z := 9223372036854775807.
Definition LONG_MIN : Z := -9223372036854775808.

(** [int] arithmetic: the value of [x + y] brought back into the range of
    a 32-bit two's complement integer. *)
Definition wrap_int (z : Z) : Z := (z - INT_MIN) mod 2 ^ 32 + INT_MIN.
Definition int_add (x y : Z) : Z := wrap_int (x + y).
Definition incr (x : Z) : Z := int_add x 1.

(** ** Standard input, seen by [scanf("%d")] and [clear_input_buffer]

    The input is a sequence of lines.  What matters of a line is how
    [scanf("%d", _)] reads it after skipping white space:
    - [Blank]: only white space up to the newline, which [%d] skips too;
    - [Junk]: the next non-blank character cannot start an integer, the
      conversion fails and nothing more is consumed;
    - [Num z tl]: the decimal integer [z] heads the line and is converted,
      [tl] is what is left of the line after it ([Blank] when the newline
      follows at once).  [z] is the number as typed, of any size. *)
Inductive line : Type :=
| Blank
| Junk
| Num (z : Z) (tl : line).

(** ** Output: one event per library call, arguments kept symbolic *)

Inductive arg : Type :=
| AInt (z : Z)
| AStr (s : string)
| APct (num den : Z). (** the double [(double)num / den * 100] *)

Inductive event : Type :=
| Printf (fmt : string) (args : list arg)
| System (cmd : string).

(** ** Heap of [int] arrays *)

Inductive block : Type :=
| Freed
| Live (cells : list (option Z)). (** [None]: allocated, never written *)

Definition ptr : Type := option nat. (** [None] is [NULL] *)

Record world : Type := World {
  flip_results : ptr;
  num_flips : Z;
  heap : list block;
  stdin : list line;
  stdout : list event;
  stderr : list event;
  rand_seq : nat -> N;       (** the sequence [rand] walks through *)
  rand_pos : nat;            (** how many values [rand] has handed out *)
  malloc_fails : nat -> bool; (** whether the k-th [malloc] returns NULL *)
  malloc_calls : nat
}.

Definition set_flip_results (p : ptr) (w : world) : world :=
  World p (num_flips w) (heap w) (stdin w) (stdout w) (stderr w)
        (rand_seq w) (rand_pos w) (malloc_fails w) (malloc_calls w).
Definition set_num_flips (n : Z) (w : world) : world :=
  World (flip_results w) n (heap w) (stdin w) (stdout w) (stderr w)
        (rand_seq w) (rand_pos w) (malloc_fails w) (malloc_calls w).
Definition set_heap (h : list block) (w : world) : world :=
  World (flip_results w) (num_flips w) h (stdin w) (stdout w) (stderr w)
        (rand_seq w) (rand_pos w) (malloc_fails w) (malloc_calls w).
Definition set_stdin (ls : list line) (w : world) : world :=
  World (flip_results w) (num_flips w) (heap w) ls (stdout w) (stderr w)
        (rand_seq w) (rand_pos w) (malloc_fails w) (malloc_calls w).
Definition set_stdout (es : list event) (w : world) : world :=
  World (flip_results w) (num_flips w) (heap w) (stdin w) es (stderr w)
        (rand_seq w) (rand_pos w) (malloc_fails w) (malloc_calls w).
Definition set_stderr (es : list event) (w : world) : world :=
  World (flip_results w) (num_flips w) (heap w) (stdin w) (stdout w) es
        (rand_seq w) (rand_pos w) (malloc_fails w) (malloc_calls w).
Definition set_rand_pos (k : nat) (w : world) : world :=
  World (flip_results w) (num_flips w) (heap w) (stdin w) (stdout w) (stderr w)
        (rand_seq w) k (malloc_fails w) (malloc_calls w).
Definition set_malloc_calls (k : nat) (w : world) : world :=
  World (flip_results w) (num_flips w) (heap w) (stdin w) (stdout w) (stderr w)
        (rand_seq w) (rand_pos w) (malloc_fails w) k.

(** ** Outcomes and the monad

    - [Ret a w]: the call returns [a] in world [w];
    - [Exit s w]: [exit(s)] was called in world [w];
    - [Spin w]: the call never returns: it is caught in the re-prompt loop
      of [get_valid_input] at the end of the input, entered in world [w];
    - [Undefined]: undefined behaviour (a bad pointer or index, a read of a
      cell never written, a double free);
    - [OutOfFuel]: the bound given to a [while] loop was too small. *)
Inductive outcome (A : Type) : Type :=
| Ret (a : A) (w : world)
| Exit (status : Z) (w : world)
| Spin (w : world)
| Undefined
| OutOfFuel.
Arguments Ret {A} a w.
Arguments Exit {A} status w.
Arguments Spin {A} w.
Arguments Undefined {A}.
Arguments OutOfFuel {A}.

Definition M (A : Type) : Type := world -> outcome A.

Definition ret {A} (a : A) : M A := fun w => Ret a w.
Definition bind {A B} (m : M A) (k : A -> M B) : M B :=
  fun w =>
    match m w with
    | Ret a w' => k a w'
    | Exit s w' => Exit s w'
    | Spin w' => Spin w'
    | Undefined => Undefined
    | OutOfFuel => OutOfFuel
    end.

Declare Scope prog_scope.
Delimit Scope prog_scope with prog.
Notation "'let*' x := m 'in' k" := (bind m (fun x => k))
  (at level 10, x pattern, m at level 100, k at level 200) : prog_scope.
Notation "m >> k" := (bind m (fun _ => k))
  (at level 100, k at level 200, right associativity) : prog_scope.
Local Open Scope prog_scope.

Definition exit {A} (status : Z) : M A := fun w => Exit status w.
Definition spin {A} : M A := fun w => Spin w.

(** Bounded [for (int i = lo; ...; i++)] carrying the locals [s]. *)
Fixpoint for_loop {S : Type} (n : nat) (i : Z) (body : Z -> S -> M S) (s : S)
  : M S :=
  match n with
  | O => ret s
  | S n' => let* s' := body i s in for_loop n' (i + 1) body s'
  end.

(** ** The C library *)

Definition printf (fmt : string) (args : list arg) : M unit :=
  fun w => Ret tt (set_stdout (stdout w ++ [Printf fmt args]) w).

Definition fprintf_stderr (fmt : string) (args : list arg) : M unit :=
  fun w => Ret tt (set_stderr (stderr w ++ [Printf fmt args]) w).

Definition system (cmd : string) : M unit :=
  fun w => Ret tt (set_stdout (stdout w ++ [System cmd]) w).

(** [rand()]: the next value of the sequence, never negative. *)
Definition rand : M Z :=
  fun w => Ret (Z.of_N (rand_seq w (rand_pos w))) (set_rand_pos (S (rand_pos w)) w).

(** [srand(time(NULL))]: the sequence is the one the clock selects, which
    the initial world carries; it is read from its start. *)
Definition srand_time : M unit :=
  fun w => Ret tt (set_rand_pos 0%nat w).

(** [malloc(bytes)]: NULL when the allocator fails, else a fresh block of
    [bytes / sizeof(int)] cells, none of them written yet. *)
Definition malloc (bytes : Z) : M ptr :=
  fun w =>
    let w1 := set_malloc_calls (S (malloc_calls w)) w in
    if malloc_fails w (malloc_calls w) then Ret None w1
    else Ret (Some (length (heap w)))
             (set_heap (heap w ++ [Live (replicate (Z.to_nat (bytes / sizeof_int)) None)]) w1).

Definition free (p : ptr) : M unit :=
  fun w =>
    match p with
    | None => Ret tt w
    | Some a =>
        match heap w !! a with
        | Some (Live _) => Ret tt (set_heap (<[a := Freed]> (heap w)) w)
        | _ => Undefined
        end
    end.

(** What [%d] stores in the [int] for the decimal number [z].  A number
    that fits is stored as it is.  For one that does not, ISO C leaves the
    conversion undefined; the C library the program runs with (glibc,
    64-bit [long]) converts with [strtol], which saturates at the bounds of
    [long], and stores the [long] cut down to its low 32 bits. *)
Definition int_of_decimal (z : Z) : Z :=
  wrap_int (Z.max LONG_MIN (Z.min LONG_MAX z)).

(** [scanf("%d", &input)]: the return value and, when a conversion took
    place, the integer stored. *)
Fixpoint scan_int (ls : list line) : Z * option Z * list line :=
  match ls with
  | [] => (EOF, None, [])
  | Blank :: ls' => scan_int ls'
  | Junk :: ls' => (0, None, Junk :: ls')
  | Num z tl :: ls' => (1, Some (int_of_decimal z), tl :: ls')
  end.

Definition scanf_d : M (Z * option Z) :=
  fun w => let '(r, v, ls) := scan_int (stdin w) in Ret (r, v) (set_stdin ls w).

(** [getchar] up to and including the next newline, or to the end. *)
Definition clear_input_buffer : M unit :=
  fun w => Ret tt (set_stdin (tail (stdin w)) w).

Definition pause : M unit :=
  printf "\nPress Enter to continue...\n" [] >>
  clear_input_buffer.

(** ** The functions of [main.c] *)

Definition range_prompt : string := "Please enter a number between %d and %d: ".

(** [get_valid_input]: the [while (1)] loop, one iteration per unit of
    fuel.  The test [scanf(...) != 1 || input < min || input > max] reads
    [input] only when [scanf] returned 1, that is when a value was stored.
    When [scanf] reports the end of the input the stream stays there,
    [clear_input_buffer] reads nothing and every later iteration prints the
    same prompt again: the loop never leaves ([Spin]). *)
Fixpoint get_valid_input_loop (fuel : nat) (min max : Z) : M Z :=
  match fuel with
  | O => fun _ => OutOfFuel
  | S fuel' =>
      let* (r, input) := scanf_d in
      match (if r =? 1 then input else None) with
      | Some v =>
          if (v <? min) || (v >? max) then
            printf range_prompt [AInt min; AInt max] >>
            clear_input_buffer >>
            get_valid_input_loop fuel' min max
          else
            clear_input_buffer >>
            ret v
      | None =>
          printf range_prompt [AInt min; AInt max] >>
          if r =? EOF then spin
          else clear_input_buffer >> get_valid_input_loop fuel' min max
      end
  end.

(** Every iteration that comes back to the loop head has consumed a line,
    so one more unit of fuel than there are lines is enough. *)
Definition get_valid_input (min max : Z) : M Z :=
  fun w => get_valid_input_loop (S (length (stdin w))) min max w.

Definition display_menu : M unit :=
  printf "================ MAIN MENU ===============\n" [] >>
  printf "1 - Generate coin flips\n" [] >>
  printf "2 - Display flip results\n" [] >>
  printf "3 - Show pattern statistics\n" [] >>
  printf "0 - Exit program\n" [] >>
  printf "==========================================\n" [].

(** [flip_results[i]] as an rvalue and as an lvalue. *)
Definition load_flip (i : Z) : M Z :=
  fun w =>
    match flip_results w with
    | None => Undefined
    | Some a =>
        match heap w !! a with
        | Some (Live cells) =>
            if i <? 0 then Undefined
            else match cells !! Z.to_nat i with
                 | Some (Some v) => Ret v w
                 | _ => Undefined
                 end
        | _ => Undefined
        end
    end.

Definition store_flip (i v : Z) : M unit :=
  fun w =>
    match flip_results w with
    | None => Undefined
    | Some a =>
        match heap w !! a with
        | Some (Live cells) =>
            if (i <? 0) || (Z.of_nat (length cells) <=? i) then Undefined
            else Ret tt (set_heap (<[a := Live (<[Z.to_nat i := Some v]> cells)]> (heap w)) w)
        | _ => Undefined
        end
    end.

Definition get_flip_results : M ptr := fun w => Ret (flip_results w) w.
Definition get_num_flips : M Z := fun w => Ret (num_flips w) w.
Definition assign_flip_results (p : ptr) : M unit :=
  fun w => Ret tt (set_flip_results p w).
Definition assign_num_flips (n : Z) : M unit :=
  fun w => Ret tt (set_num_flips n w).

Definition generate_flips : M Z :=
  printf "How many coin flips would you like to generate?\n" [] >>
  printf "(Range: %d - %d): " [AInt MIN_FLIPS; AInt MAX_FLIPS] >>
  let* requested_flips := get_valid_input MIN_FLIPS MAX_FLIPS in
  let* old := get_flip_results in
  (match old with
   | Some _ => free old >> assign_flip_results None
   | None => ret tt
   end) >>
  let* p := malloc (sizeof_int * requested_flips) in
  assign_flip_results p >>
  match p with
  | None =>
      fprintf_stderr "Memory allocation error!\n" [] >>
      exit EXIT_FAILURE
  | Some _ =>
      for_loop (Z.to_nat requested_flips) 0
        (fun i _ => let* r := rand in store_flip i (Z.rem r 2)) tt >>
      ret requested_flips
  end.

Definition flip_to_string (flip : Z) : string :=
  if flip =? HEADS then "HEADS"
  else if flip =? TAILS then "TAILS"
  else "UNKNOWN".

Definition no_flips_yet : string := "No flips have been generated yet.\n".

Definition display_flips : M unit :=
  let* n := get_num_flips in
  if n =? 0 then
    printf no_flips_yet []
  else
    for_loop (Z.to_nat n) 0
      (fun i _ =>
         let* x := load_flip i in
         printf "%6d  |   %d   | %s\n" [AInt (i + 1); AInt x; AStr (flip_to_string x)] >>
         if (Z.rem (i + 1) PAUSE_INTERVAL =? 0) && (i <? n - 1) then pause
         else ret tt) tt >>
    printf "========================\n" [] >>
    printf "Total flips displayed: %d\n" [AInt n].

(** The six locals of [statistics]. *)
Record counters : Type := Counters {
  heads_sequences : Z;
  tails_sequences : Z;
  current_heads_streak : Z;
  current_tails_streak : Z;
  total_heads : Z;
  total_tails : Z
}.

Definition counters_init : counters := Counters 0 0 0 0 0 0.

(** The body of the scanning loop of [statistics] for the element [x]. *)
Definition stats_step (x : Z) (c : counters) : counters :=
  if x =? HEADS then
    let streak := incr (current_heads_streak c) in
    Counters
      (if streak =? SEQUENCE_LENGTH then incr (heads_sequences c)
       else heads_sequences c)
      (tails_sequences c)
      streak
      0
      (incr (total_heads c))
      (total_tails c)
  else
    let streak := incr (current_tails_streak c) in
    Counters
      (heads_sequences c)
      (if streak =? SEQUENCE_LENGTH then incr (tails_sequences c)
       else tails_sequences c)
      0
      streak
      (total_heads c)
      (incr (total_tails c)).

(** What [statistics] prints once the scan is over. *)
Definition report (n : Z) (c : counters) : list event :=
  [ Printf "FLIP DISTRIBUTION:\n" [];
    Printf "==================\n" [];
    Printf "Total Heads: %d (%.1f%%)\n" [AInt (total_heads c); APct (total_heads c) n];
    Printf "Total Tails: %d (%.1f%%)\n" [AInt (total_tails c); APct (total_tails c) n];
    Printf "\nCONSECUTIVE SEQUENCE ANALYSIS:\n" [];
    Printf "==============================\n" [];
    Printf "Sequences of %d consecutive HEADS: %d\n"
           [AInt SEQUENCE_LENGTH; AInt (heads_sequences c)];
    Printf "Sequences of %d consecutive TAILS: %d\n"
           [AInt SEQUENCE_LENGTH; AInt (tails_sequences c)];
    Printf "Total consecutive sequences found: %d\n"
           [AInt (int_add (heads_sequences c) (tails_sequences c))] ].

Fixpoint print_all (es : list event) : M unit :=
  match es with
  | [] => ret tt
  | Printf fmt args :: es' => printf fmt args >> print_all es'
  | System cmd :: es' => system cmd >> print_all es'
  end.

Definition generate_first : string :=
  "Please use option 1 to generate flips first.\n".

(** The scanning loop of [statistics], from freshly zeroed locals. *)
Definition scan_flips (n : Z) : M counters :=
  for_loop (Z.to_nat n) 0
    (fun i c => let* x := load_flip i in ret (stats_step x c))
    counters_init.

Definition statistics : M unit :=
  let* n := get_num_flips in
  if n =? 0 then
    printf no_flips_yet [] >>
    printf generate_first []
  else
    let* c := scan_flips n in
    print_all (report n c).

(** [clear_screen], built without [_WIN32]. *)
Definition clear_screen : M unit := system "clear".

Definition invalid_choice : string := "Invalid choice. Please try again.\n".

(** The [switch] of [main]. *)
Definition dispatch (choice : Z) : M unit :=
  if choice =? 1 then
    let* n := generate_flips in
    assign_num_flips n >>
    if n >? 0 then printf "\nSuccessfully generated %d coin flips!\n" [AInt n]
    else ret tt
  else if choice =? 2 then display_flips
  else if choice =? 3 then statistics
  else if choice =? 0 then printf "Thank you for using the Coin Flip Simulator!\n" []
  else printf invalid_choice [].

(** One turn of the [do ... while] of [main]; returns the choice. *)
Definition menu_turn : M Z :=
  display_menu >>
  printf "Enter your choice (0-3): " [] >>
  let* choice := get_valid_input 0 3 in
  printf "\n" [] >>
  dispatch choice >>
  (if negb (choice =? 0) then pause >> clear_screen else ret tt) >>
  ret choice.

Fixpoint main_loop (fuel : nat) : M unit :=
  match fuel with
  | O => fun _ => OutOfFuel
  | S fuel' =>
      let* choice := menu_turn in
      if negb (choice =? 0) then main_loop fuel' else ret tt
  end.

(** Every turn reads at least the line of its choice. *)
Definition main : M Z :=
  srand_time >>
  clear_screen >>
  (fun w => main_loop (S (length (stdin w))) w) >>
  let* p := get_flip_results in
  (match p with Some _ => free p | None => ret tt end) >>
  ret 0.

(** The world at program start: no buffer, nothing printed. *)
Definition initial_world (input : list line) (rs : nat -> N) (mf : nat -> bool)
  : world :=
  World None 0 [] input [] [] rs 0%nat mf 0%nat.

(** ** The scan of [statistics] over the contents of the array *)

Definition scan (c : counters) (buf : list Z) : counters :=
  fold_left (fun c x => stats_step x c) buf c.

Definition analyze (buf : list Z) : counters := scan counters_init buf.

(** ** Maximal runs, as the glossary defines them

    [runs buf] lists the maximal blocks of consecutive identical outcomes
    of [buf] with their lengths, in order. *)
Fixpoint runs (l : list Z) : list (Z * nat) :=
  match l with
  | [] => []
  | x :: l' =>
      match runs l' with
      | (y, n) :: rs => if x =? y then (y, S n) :: rs else (x, 1%nat) :: (y, n) :: rs
      | [] => [(x, 1%nat)]
      end
  end.

Definition is_long_run (o : Z) (r : Z * nat) : bool :=
  (r.1 =? o) && (SEQUENCE_LENGTH <=? Z.of_nat r.2).

(** Number of maximal runs of outcome [o] of length at least 5. *)
Definition long_runs (o : Z) (l : list Z) : nat :=
  length (List.filter (is_long_run o) (runs l)).

(** Streak and run count for one outcome [v], on unbounded naturals. *)
Definition streak_step (v : Z) (st : nat * nat) (x : Z) : nat * nat :=
  if x =? v then
    (S st.1, if (S st.1 =? 5)%nat then S st.2 else st.2)
  else (0%nat, st.2).

Definition is_outcome (x : Z) : Prop := x = HEADS \/ x = TAILS.

(** ** The session state

    [holds_buffer w buf]: [flip_results] points to a live array whose cells
    have all been written, with contents [buf], and [num_flips] is its
    length. *)
Definition holds_buffer (w : world) (buf : list Z) : Prop :=
  exists a, flip_results w = Some a
            /\ heap w !! a = Some (Live (Some <$> buf))
            /\ num_flips w = Z.of_nat (length buf).

(** How many elements of [l] the scan takes for heads, and for tails (the
    [else] branch: everything that is not [HEADS]). *)
Definition count_heads (l : list Z) : nat :=
  length (List.filter (fun x => x =? HEADS) l).
Definition count_tails (l : list Z) : nat :=
  length (List.filter (fun x => negb (x =? HEADS)) l).

(** A world that holds the buffer [buf] and nothing else. *)
Definition world_with (buf : list Z) : world :=
  World (Some 0%nat) (Z.of_nat (length buf)) [Live (Some <$> buf)] [] [] []
        (fun _ => 0%N) 0%nat (fun _ => false) 0%nat.

(** ** Reading a choice or a count

    A line [get_valid_input min max] turns down: nothing that converts,
    or an integer whose value in the [int] is outside [min, max]. *)
Definition rejected (min max : Z) (l : line) : Prop :=
  l = Junk
  \/ exists z tl, l = Num z tl
                  /\ (int_of_decimal z < min \/ max < int_of_decimal z).

(** The number [z] can be held by an [int]. *)
Definition fits_int (z : Z) : Prop := INT_MIN <= z <= INT_MAX.

(** Every number that heads a line of the input fits an [int]: [scanf]
    never meets a conversion that ISO C leaves undefined. *)
Definition input_fits (ls : list line) : Prop :=
  Forall (fun l => match l with Num z _ => fits_int z | _ => True end) ls.

Definition range_message (min max : Z) : event :=
  Printf range_prompt [AInt min; AInt max].

(** The world once [k] lines have been turned down, [rest] being left. *)
Definition after_rejections (min max : Z) (k : nat) (rest : list line)
    (w : world) : world :=
  set_stdin rest (set_stdout (stdout w ++ replicate k (range_message min max)) w).

(** [w'] differs from [w] in the standard streams at most. *)
Definition same_session (w w' : world) : Prop :=
  flip_results w' = flip_results w
  /\ num_flips w' = num_flips w
  /\ heap w' = heap w.

(** ** Generation *)

(** The heading [generate_flips] prints before it reads the count. *)
Definition gen_header (w : world) : world :=
  set_stdout
    (stdout w ++ [Printf "How many coin flips would you like to generate?\n" [];
                  Printf "(Range: %d - %d): " [AInt MIN_FLIPS; AInt MAX_FLIPS]])
    w.

(** The heap once the block [flip_results] points to has been freed. *)
Definition release (w : world) : list block :=
  match flip_results w with
  | Some a => <[a := Freed]> (heap w)
  | None => heap w
  end.

(** The next [n] flips: the [i]-th is [rand() % 2] of the [i]-th call to
    [rand] from [w] on. *)
Definition fresh_flips (w : world) (n : nat) : list Z :=
  (fun i => Z.rem (Z.of_N (rand_seq w (rand_pos w + i)%nat)) 2) <$> seq 0 n.

(** The array during the filling loop: [j] cells written, the others not. *)
Definition filling (w : world) (n j : nat) : world :=
  World (Some (length (heap w))) (num_flips w)
        (release w ++ [Live ((Some <$> fresh_flips w j) ++ replicate (n - j) None)])
        (stdin w) (stdout w) (stderr w)
        (rand_seq w) (rand_pos w + j)%nat (malloc_fails w) (S (malloc_calls w)).

(** The world [generate_flips] returns in, and the one it exits in when
    [malloc] fails, [w] being the world when the count was read. *)
Definition generated (n : Z) (w : world) : world :=
  filling w (Z.to_nat n) (Z.to_nat n).

Definition alloc_failed (w : world) : world :=
  World None (num_flips w) (release w) (stdin w) (stdout w)
        (stderr w ++ [Printf "Memory allocation error!\n" []])
        (rand_seq w) (rand_pos w) (malloc_fails w) (S (malloc_calls w)).

(** [flip_results] is NULL or points to a live block. *)
Definition pointer_ok (w : world) : Prop :=
  match flip_results w with
  | Some a => exists cells, heap w !! a = Some (Live cells)
  | None => True
  end.

(** The session invariant: no buffer, [num_flips] being 0 and
    [flip_results] NULL; or a buffer of [num_flips] outcomes, all written,
    with [num_flips] in [MIN_FLIPS, MAX_FLIPS]. *)
Definition session_ok (w : world) : Prop :=
  (flip_results w = None /\ num_flips w = 0)
  \/ (exists buf, holds_buffer w buf /\ Forall is_outcome buf
                  /\ MIN_FLIPS <= num_flips w <= MAX_FLIPS).

(** [w'] is [w] except for what was read and what was printed. *)
Definition io_only (w w' : world) : Prop :=
  exists ls new, w' = set_stdin ls (set_stdout (stdout w ++ new) w).

(** The world once [main] has stored the count and announced it. *)
Definition announced (n : Z) (w : world) : world :=
  set_stdout
    (stdout w ++ [Printf "\nSuccessfully generated %d coin flips!\n" [AInt n]])
    (set_num_flips n w).

(** ** Display *)

Definition mentions_unknown (e : event) : Prop :=
  match e with
  | Printf _ args => In (AStr "UNKNOWN") args
  | System _ => False
  end.

(** The events [w'] has on [stdout] beyond those of [w] all satisfy [P]. *)
Definition printed (P : event -> Prop) (w w' : world) : Prop :=
  exists new, stdout w' = stdout w ++ new /\ Forall P new.

(** A percentage whose divisor is zero. *)
Definition divides_by_zero (e : event) : Prop :=
  match e with
  | Printf _ args => exists num, In (APct num 0) args
  | System _ => False
  end.

(** ** Postconditions

    [post o Q E D]: the outcome [o] is a return satisfying [Q], an [exit]
    satisfying [E] or an endless re-prompt entered in a world satisfying
    [D]; it is neither undefined behaviour nor a loop out of fuel. *)
Definition post {A} (o : outcome A) (Q : A -> world -> Prop)
    (E : Z -> world -> Prop) (D : world -> Prop) : Prop :=
  match o with
  | Ret a w' => Q a w'
  | Exit s w' => E s w'
  | Spin w' => D w'
  | Undefined | OutOfFuel => False
  end.

(** What holds when the process is ended by the failed allocation. *)
Definition fatal_exit (s : Z) (w : world) : Prop :=
  s = EXIT_FAILURE /\ flip_results w = None.

(** [m] keeps the session invariant. *)
Definition keeps_session {A} (m : M A) : Prop :=
  forall w, session_ok w ->
    post (m w) (fun _ w' => session_ok w') fatal_exit session_ok.

(** The world in which [generate_flips] has read a count, after turning
    down [k] lines, [rest] being left of the input. *)
Definition count_read (k : nat) (rest : list line) (w : world) : world :=
  after_rejections MIN_FLIPS MAX_FLIPS k rest (gen_header w).

(** A pseudo-random sequence to run the program on. *)
Definition sample_rand (k : nat) : N := N.of_nat (k * k * k / 7 + k / 2).

(** ** Progress on the input

    [consumes strict m]: when [m] returns, the input left is no longer
    than before, and strictly shorter when [strict]. *)
Definition consumes {A} (strict : bool) (m : M A) : Prop :=
  forall w,
    match m w with
    | Ret _ w' =>
        if strict then (length (stdin w') < length (stdin w))%nat
        else (length (stdin w') <= length (stdin w))%nat
    | _ => True
    end.

(** ** Blank lines at a prompt

    A line [get_valid_input min max] does not return on: a blank one,
    which [scanf] skips without a word, or a rejected one. *)
Definition passed_over (min max : Z) (l : line) : Prop :=
  l = Blank \/ rejected min max l.

Definition is_blank (l : line) : bool :=
  match l with Blank => true | _ => false end.

(** The lines of [ls] that are not blank: one prompt is printed for each
    of them that is turned down. *)
Definition non_blank (ls : list line) : nat :=
  length (List.filter (fun l => negb (is_blank l)) ls).

(** ** What [display_flips] prints *)

Definition pause_prompt : event := Printf "\nPress Enter to continue...\n" [].

(** The line of the flip [x] at index [i], counted from 0. *)
Definition flip_row (i x : Z) : event :=
  Printf "%6d  |   %d   | %s\n" [AInt (i + 1); AInt x; AStr (flip_to_string x)].

(** The test that decides a pause after the line of index [i], of [n]. *)
Definition pause_after (n i : Z) : bool :=
  (Z.rem (i + 1) PAUSE_INTERVAL =? 0) && (i <? n - 1).

(** The lines of the flips [buf], the first at index [i], with the pause
    prompts between them. *)
Fixpoint display_events (n i : Z) (buf : list Z) : list event :=
  match buf with
  | [] => []
  | x :: buf' =>
      flip_row i x :: (if pause_after n i then [pause_prompt] else [])
      ++ display_events n (i + 1) buf'
  end.

(** How many of the [k] lines from index [i] on are followed by a pause. *)
Fixpoint pauses_in (n i : Z) (k : nat) : nat :=
  match k with
  | O => O
  | S k' => ((if pause_after n i then 1 else 0) + pauses_in n (i + 1) k')%nat
  end.

Definition display_footer (n : Z) : list event :=
  [Printf "========================\n" [];
   Printf "Total flips displayed: %d\n" [AInt n]].

Definition is_flip_row (e : event) : bool :=
  match e with
  | Printf _ [AInt _; AInt _; AStr _] => true
  | _ => false
  end.

(** ** Bounds kept by the scan *)

(** The part of a streak of length [s] not yet paid for by a counted
    sequence. *)
Definition streak_credit (s : Z) : Z := if s <? 5 then s else s - 5.

Definition scan_inv (c : counters) : Prop :=
  0 <= heads_sequences c
  /\ 0 <= tails_sequences c
  /\ 0 <= current_heads_streak c <= total_heads c
  /\ 0 <= current_tails_streak c <= total_tails c
  /\ 5 * heads_sequences c + streak_credit (current_heads_streak c) <= total_heads c
  /\ 5 * tails_sequences c + streak_credit (current_tails_streak c) <= total_tails c.

(** The report of [statistics] written from the buffer itself. *)
Definition report_of (buf : list Z) : list event :=
  let n := Z.of_nat (length buf) in
  let h := Z.of_nat (count_heads buf) in
  let t := Z.of_nat (count_tails buf) in
  let rh := Z.of_nat (long_runs HEADS buf) in
  let rt := Z.of_nat (long_runs TAILS buf) in
  [ Printf "FLIP DISTRIBUTION:\n" [];
    Printf "==================\n" [];
    Printf "Total Heads: %d (%.1f%%)\n" [AInt h; APct h n];
    Printf "Total Tails: %d (%.1f%%)\n" [AInt t; APct t n];
    Printf "\nCONSECUTIVE SEQUENCE ANALYSIS:\n" [];
    Printf "==============================\n" [];
    Printf "Sequences of %d consecutive HEADS: %d\n" [AInt 5; AInt rh];
    Printf "Sequences of %d consecutive TAILS: %d\n" [AInt 5; AInt rt];
    Printf "Total consecutive sequences found: %d\n" [AInt (rh + rt)] ].

(** The label a line of [display_flips] carries. *)
Definition has_label (s : string) (e : event) : bool :=
  match e with
  | Printf _ [AInt _; AInt _; AStr s'] => String.eqb s' s
  | _ => false
  end.

(** ** Ownership of the heap *)

(** Every live block is the one [flip_results] points to. *)
Definition one_live (w : world) : Prop :=
  forall a cells, heap w !! a = Some (Live cells) -> flip_results w = Some a.

Definition all_freed (w : world) : Prop :=
  Forall (fun b => b = Freed) (heap w).

Definition tidy (w : world) : Prop := session_ok w /\ one_live w.

Definition clean_exit (s : Z) (w : world) : Prop :=
  s = EXIT_FAILURE /\ all_freed w.

(** [m] keeps the session invariant and the ownership of the heap. *)
Definition keeps_tidy {A} (m : M A) : Prop :=
  forall w, tidy w -> post (m w) (fun _ w' => tidy w') clean_exit tidy.

(** ** The turn of the menu *)

Definition menu_events : list event :=
  [Printf "================ MAIN MENU ===============\n" [];
   Printf "1 - Generate coin flips\n" [];
   Printf "2 - Display flip results\n" [];
   Printf "3 - Show pattern statistics\n" [];
   Printf "0 - Exit program\n" [];
   Printf "==========================================\n" [];
   Printf "Enter your choice (0-3): " []].

Definition farewell : event :=
  Printf "Thank you for using the Coin Flip Simulator!\n" [].

(** The world in which the [switch] of [main] is entered, [k] lines having
    been turned down and [ls] being left of the input. *)
Definition choice_read (k : nat) (ls : list line) (w : world) : world :=
  let w1 := after_rejections 0 3 k ls (set_stdout (stdout w ++ menu_events) w) in
  set_stdout (stdout w1 ++ [Printf "\n" []]) w1.

(** ** Heads for tails *)

(** The other outcome. *)
Definition other_outcome (x : Z) : Z := if x =? HEADS then TAILS else HEADS.

(** The counters with the roles of heads and tails exchanged. *)
Definition swap_counters (c : counters) : counters :=
  Counters (tails_sequences c) (heads_sequences c)
           (current_tails_streak c) (current_heads_streak c)
           (total_tails c) (total_heads c).

Definition success_message (n : Z) : event :=
  Printf "\nSuccessfully generated %d coin flips!\n" [AInt n].

(** ** Facts on [int] arithmetic *)

Lemma wrap_int_id z : INT_MIN <= z <= INT_MAX -> wrap_int z = z.
Proof.
  unfold wrap_int, INT_MIN, INT_MAX. intros H.
  rewrite Z.mod_small; lia.
Qed.

Lemma incr_small z : INT_MIN <= z < INT_MAX -> incr z = z + 1.
Proof.
  intros H. unfold incr, int_add. apply wrap_int_id. lia.
Qed.

(** ** Facts on maximal runs *)

Lemma runs_cons x l :
  runs (x :: l)
  = match runs l with
    | (y, n) :: rs => if x =? y then (y, S n) :: rs else (x, 1%nat) :: (y, n) :: rs
    | [] => [(x, 1%nat)]
    end.
Proof. reflexivity. Qed.

Lemma runs_cons_head x l :
  exists n rs, runs (x :: l) = (x, S n) :: rs.
Proof.
  rewrite runs_cons. destruct (runs l) as [|[y n] rs].
  - by exists 0%nat, [].
  - destruct (Z.eqb_spec x y) as [->|Hne]; eauto.
Qed.

Lemma runs_replicate n v : runs (replicate (S n) v) = [(v, S n)].
Proof.
  induction n as [|n IH]; [done|].
  change (replicate (S (S n)) v) with (v :: replicate (S n) v).
  rewrite runs_cons, IH. by rewrite Z.eqb_refl.
Qed.

Lemma runs_replicate_app s v x l :
  x <> v ->
  runs (replicate s v ++ x :: l) = runs (replicate s v) ++ runs (x :: l).
Proof.
  intros Hne. induction s as [|s IH]; [done|].
  change (replicate (S s) v ++ x :: l) with (v :: (replicate s v ++ x :: l)).
  rewrite runs_cons, IH.
  destruct (runs_cons_head x l) as (n & rs & ->).
  destruct s as [|s].
  - simpl. destruct (Z.eqb_spec v x); [congruence|done].
  - change (replicate (S (S s)) v) with (v :: replicate (S s) v).
    rewrite runs_cons, !runs_replicate. simpl. by rewrite Z.eqb_refl.
Qed.

Lemma is_long_run_other v x n : x <> v -> is_long_run v (x, n) = false.
Proof.
  intros Hne. unfold is_long_run. cbn [fst].
  by rewrite (proj2 (Z.eqb_neq x v) Hne).
Qed.

Lemma long_runs_cons_other v x l : x <> v -> long_runs v (x :: l) = long_runs v l.
Proof.
  intros Hne. unfold long_runs. rewrite runs_cons.
  destruct (runs l) as [|[y n] rs] eqn:E.
  - cbn [List.filter]. by rewrite is_long_run_other.
  - destruct (Z.eqb_spec x y) as [->|Hxy]; cbn [List.filter].
    + by rewrite !is_long_run_other.
    + by rewrite (is_long_run_other v x).
Qed.

Lemma long_runs_replicate v s :
  long_runs v (replicate s v) = if (5 <=? s)%nat then 1%nat else 0%nat.
Proof.
  destruct s as [|s]; [done|].
  unfold long_runs. rewrite runs_replicate. cbn [List.filter].
  unfold is_long_run, SEQUENCE_LENGTH. cbn [fst snd].
  rewrite Z.eqb_refl. cbn [andb].
  destruct (Z.leb_spec 5 (Z.of_nat (S s))), (Nat.leb_spec 5 (S s)); simpl; lia.
Qed.

Lemma long_runs_app_other v s x l :
  x <> v ->
  long_runs v (replicate s v ++ x :: l)
  = (long_runs v (replicate s v) + long_runs v l)%nat.
Proof.
  intros Hne. unfold long_runs at 1. rewrite runs_replicate_app by done.
  rewrite List.filter_app, length_app.
  fold (long_runs v (replicate s v)). fold (long_runs v (x :: l)).
  by rewrite long_runs_cons_other.
Qed.

(** The streak automaton counts exactly the long maximal runs, the run in
    progress on entry (of length [s]) being continued by the list. *)
Lemma streak_long_runs v l : forall s k,
  ((fold_left (streak_step v) l (s, k)).2 + long_runs v (replicate s v)
   = k + long_runs v (replicate s v ++ l))%nat.
Proof.
  induction l as [|x l IH]; intros s k.
  - simpl. by rewrite app_nil_r.
  - cbn [fold_left]. unfold streak_step at 2. cbn [fst snd].
    destruct (Z.eqb_spec x v) as [->|Hne].
    + specialize (IH (S s) (if (S s =? 5)%nat then S k else k)).
      replace (replicate s v ++ v :: l) with (replicate (S s) v ++ l)
        by (rewrite replicate_S_end, <- app_assoc; done).
      rewrite !long_runs_replicate in *.
      destruct (Nat.eqb_spec (S s) 5), (Nat.leb_spec 5 (S s)), (Nat.leb_spec 5 s);
        lia.
    + specialize (IH 0%nat k). simpl in IH.
      rewrite long_runs_app_other by done. change (long_runs v []) with 0%nat in IH.
      lia.
Qed.

(** ** The scan against the streak automaton *)

Lemma scan_cons x l c : scan c (x :: l) = scan (stats_step x c) l.
Proof. reflexivity. Qed.

Lemma scan_heads l : forall c s k,
  current_heads_streak c = Z.of_nat s ->
  heads_sequences c = Z.of_nat k ->
  Z.of_nat s + Z.of_nat (length l) <= INT_MAX ->
  Z.of_nat k + Z.of_nat (length l) <= INT_MAX ->
  current_heads_streak (scan c l) = Z.of_nat (fold_left (streak_step HEADS) l (s, k)).1
  /\ heads_sequences (scan c l) = Z.of_nat (fold_left (streak_step HEADS) l (s, k)).2.
Proof.
  induction l as [|x l IH]; intros c s k Hs Hk Bs Bk; [done|].
  rewrite scan_cons. cbn [fold_left]. cbn [length] in Bs, Bk.
  unfold streak_step at 2 4. cbn [fst snd].
  assert (INT_MIN <= 0) by (unfold INT_MIN; lia).
  unfold INT_MAX in *.
  destruct (x =? HEADS) eqn:E; apply IH; unfold stats_step; rewrite ?E;
    cbn [current_heads_streak heads_sequences fst snd]; try lia.
  - rewrite Hs, incr_small by (unfold INT_MAX; lia). lia.
  - rewrite Hs, incr_small by (unfold INT_MAX; lia). unfold SEQUENCE_LENGTH.
    destruct (Z.eqb_spec (Z.of_nat s + 1) 5), (Nat.eqb_spec (S s) 5); try lia.
    rewrite Hk, incr_small by (unfold INT_MAX; lia). lia.
  - destruct (S s =? 5)%nat; lia.
Qed.

Lemma scan_tails l : forall c s k,
  Forall is_outcome l ->
  current_tails_streak c = Z.of_nat s ->
  tails_sequences c = Z.of_nat k ->
  Z.of_nat s + Z.of_nat (length l) <= INT_MAX ->
  Z.of_nat k + Z.of_nat (length l) <= INT_MAX ->
  current_tails_streak (scan c l) = Z.of_nat (fold_left (streak_step TAILS) l (s, k)).1
  /\ tails_sequences (scan c l) = Z.of_nat (fold_left (streak_step TAILS) l (s, k)).2.
Proof.
  induction l as [|x l IH]; intros c s k Hl Hs Hk Bs Bk; [done|].
  apply Forall_cons in Hl as [Hx Hl].
  rewrite scan_cons. cbn [fold_left]. cbn [length] in Bs, Bk.
  unfold streak_step at 2 4. cbn [fst snd].
  assert (INT_MIN <= 0) by (unfold INT_MIN; lia).
  unfold INT_MAX in *.
  destruct Hx as [->| ->]; unfold HEADS, TAILS; cbn [Z.eqb Pos.eqb];
    (apply IH; [done|..]); unfold stats_step, HEADS; cbn [Z.eqb Pos.eqb];
    cbn [current_tails_streak tails_sequences fst snd]; try lia.
  - rewrite Hs, incr_small by (unfold INT_MAX; lia). lia.
  - rewrite Hs, incr_small by (unfold INT_MAX; lia). unfold SEQUENCE_LENGTH.
    destruct (Z.eqb_spec (Z.of_nat s + 1) 5), (Nat.eqb_spec (S s) 5); try lia.
    rewrite Hk, incr_small by (unfold INT_MAX; lia). lia.
  - destruct (S s =? 5)%nat; lia.
Qed.

Lemma analyze_heads_sequences buf :
  Z.of_nat (length buf) <= INT_MAX ->
  heads_sequences (analyze buf) = Z.of_nat (long_runs HEADS buf).
Proof.
  intros B.
  unfold analyze.
  destruct (scan_heads buf counters_init 0 0) as [_ ->]; try done; try lia.
  pose proof (streak_long_runs HEADS buf 0 0) as H. simpl in H.
  change (long_runs HEADS []) with 0%nat in H. lia.
Qed.

Lemma analyze_tails_sequences buf :
  Forall is_outcome buf ->
  Z.of_nat (length buf) <= INT_MAX ->
  tails_sequences (analyze buf) = Z.of_nat (long_runs TAILS buf).
Proof.
  intros Hb B.
  unfold analyze.
  destruct (scan_tails buf counters_init 0 0) as [_ ->]; try done; try lia.
  pose proof (streak_long_runs TAILS buf 0 0) as H. simpl in H.
  change (long_runs TAILS []) with 0%nat in H. lia.
Qed.

(** ** Reasoning on programs *)

Lemma bind_Ret {A B} (m : M A) (k : A -> M B) w a w' :
  m w = Ret a w' -> bind m k w = k a w'.
Proof. intros H. unfold bind. by rewrite H. Qed.

Lemma set_stdout_same w : set_stdout (stdout w) w = w.
Proof. by destruct w. Qed.

(** A loop invariant indexed by the number of iterations done: when each
    iteration returns and re-establishes it, the loop returns with the
    invariant at the final index. *)
Lemma for_loop_inv {S : Type} (I : nat -> S -> world -> Prop)
    (body : Z -> S -> M S) (n : nat) : forall (k : nat) (s : S) (w : world),
  I k s w ->
  (forall j s w, (k <= j < k + n)%nat -> I j s w ->
     exists s' w', body (Z.of_nat j) s w = Ret s' w' /\ I (Datatypes.S j) s' w') ->
  exists s' w', for_loop n (Z.of_nat k) body s w = Ret s' w' /\ I (k + n)%nat s' w'.
Proof.
  induction n as [|n IH]; intros k s w HI Hbody.
  - exists s, w. rewrite Nat.add_0_r. done.
  - destruct (Hbody k s w) as (s1 & w1 & Hb & HI1); [lia|done|].
    destruct (IH (Datatypes.S k) s1 w1) as (s2 & w2 & Hl & HI2); [done| |].
    { intros j s' w' Hj. apply Hbody. lia. }
    exists s2, w2. split.
    + cbn [for_loop]. rewrite (bind_Ret _ _ _ _ _ Hb).
      replace (Z.of_nat k + 1) with (Z.of_nat (Datatypes.S k)) by lia. done.
    + replace (k + Datatypes.S n)%nat with (Datatypes.S k + n)%nat by lia. done.
Qed.

Lemma print_all_spec es : forall w,
  print_all es w = Ret tt (set_stdout (stdout w ++ es) w).
Proof.
  induction es as [|[fmt args|cmd] es IH]; intros w.
  - simpl. unfold ret. by rewrite app_nil_r, set_stdout_same.
  - cbn [print_all]. unfold bind, printf. rewrite IH.
    cbn [stdout set_stdout]. by rewrite <- app_assoc.
  - cbn [print_all]. unfold bind, system. rewrite IH.
    cbn [stdout set_stdout]. by rewrite <- app_assoc.
Qed.

Lemma load_flip_ok w a (buf : list Z) (i : nat) x :
  flip_results w = Some a ->
  heap w !! a = Some (Live (Some <$> buf)) ->
  buf !! i = Some x ->
  load_flip (Z.of_nat i) w = Ret x w.
Proof.
  intros Hp Hh Hx. unfold load_flip. rewrite Hp, Hh.
  destruct (Z.ltb_spec (Z.of_nat i) 0); [lia|].
  by rewrite Nat2Z.id, list_lookup_fmap, Hx.
Qed.

Lemma scan_snoc c l x : scan c (l ++ [x]) = stats_step x (scan c l).
Proof. unfold scan. by rewrite fold_left_app. Qed.

(** On a world that holds a buffer, the loop of [statistics] returns the
    scan of its contents and changes nothing. *)
Lemma scan_flips_spec w buf :
  holds_buffer w buf ->
  scan_flips (num_flips w) w = Ret (analyze buf) w.
Proof.
  intros (a & Hp & Hh & Hn). unfold scan_flips. rewrite Hn, Nat2Z.id.
  destruct (for_loop_inv
              (fun j c w' => w' = w /\ c = scan counters_init (take j buf))
              (fun i c => let* x := load_flip i in ret (stats_step x c))
              (length buf) 0%nat counters_init w) as (c & w' & Hl & -> & ->).
  - done.
  - intros j c w' Hj [-> ->].
    destruct (lookup_lt_is_Some_2 buf j) as [x Hx]; [lia|].
    exists (stats_step x (scan counters_init (take j buf))), w. split.
    + by rewrite (bind_Ret _ _ _ _ _ (load_flip_ok _ _ _ _ _ Hp Hh Hx)).
    + split; [done|]. by rewrite (take_S_r _ _ _ Hx), scan_snoc.
  - change (Z.of_nat 0) with 0 in Hl. rewrite Hl.
    by rewrite Nat.add_0_l, firstn_all.
Qed.

Lemma statistics_spec w buf :
  holds_buffer w buf -> buf <> [] ->
  statistics w
  = Ret tt (set_stdout (stdout w ++ report (num_flips w) (analyze buf)) w).
Proof.
  intros Hb Hne. pose proof Hb as (a & Hp & Hh & Hn).
  unfold statistics, bind at 1, get_num_flips.
  destruct (Z.eqb_spec (num_flips w) 0) as [E|_].
  - destruct buf; [done|]. simpl in Hn. lia.
  - rewrite (bind_Ret _ _ _ _ _ (scan_flips_spec _ _ Hb)).
    apply print_all_spec.
Qed.

Lemma count_heads_tails l : (count_heads l + count_tails l)%nat = length l.
Proof.
  unfold count_heads, count_tails.
  induction l as [|x l IH]; [done|].
  cbn [List.filter]. destruct (x =? HEADS); cbn [negb length]; lia.
Qed.

Lemma scan_counts l : forall c,
  0 <= total_heads c -> 0 <= total_tails c ->
  total_heads c + total_tails c + Z.of_nat (length l) <= INT_MAX ->
  total_heads (scan c l) = total_heads c + Z.of_nat (count_heads l)
  /\ total_tails (scan c l) = total_tails c + Z.of_nat (count_tails l).
Proof.
  induction l as [|x l IH]; intros c Hh Ht B.
  - unfold count_heads, count_tails. simpl. lia.
  - rewrite scan_cons. cbn [length] in B.
    assert (INT_MIN <= 0) by (unfold INT_MIN; lia).
    assert (Hstep :
      total_heads (stats_step x c)
      = total_heads c + (if x =? HEADS then 1 else 0)
      /\ total_tails (stats_step x c)
         = total_tails c + (if x =? HEADS then 0 else 1)).
    { unfold stats_step; destruct (x =? HEADS); cbn [total_heads total_tails];
        rewrite incr_small by lia; lia. }
    destruct Hstep as [S1 S2].
    destruct (IH (stats_step x c)) as [H1 H2].
    { destruct (x =? HEADS); lia. }
    { destruct (x =? HEADS); lia. }
    { destruct (x =? HEADS); lia. }
    rewrite H1, H2, S1, S2. unfold count_heads, count_tails.
    cbn [List.filter]. destruct (x =? HEADS); cbn [negb length]; lia.
Qed.

(** C2: for every analyzed buffer of length n, the scan of [statistics]
    ends with [total_heads + total_tails = n]: every element is counted
    exactly once, in [total_heads] when it is [HEADS] and in [total_tails]
    otherwise.  [n] is the value of the [int] [num_flips]. *)
Theorem totals_add_up (w : world) (buf : list Z) :
  holds_buffer w buf ->
  num_flips w <= INT_MAX ->
  scan_flips (num_flips w) w = Ret (analyze buf) w
  /\ total_heads (analyze buf) + total_tails (analyze buf) = num_flips w
  /\ total_heads (analyze buf) = Z.of_nat (count_heads buf)
  /\ total_tails (analyze buf) = Z.of_nat (count_tails buf).
Proof.
  intros Hb Hn. split; [by apply scan_flips_spec|].
  destruct Hb as (a & _ & _ & Hlen). rewrite Hlen in *.
  destruct (scan_counts buf counters_init) as [H1 H2]; [done|done|simpl; lia|].
  fold (analyze buf) in H1, H2. simpl in H1, H2.
  pose proof (count_heads_tails buf). lia.
Qed.

Lemma totals_add_up_witness :
  holds_buffer (world_with [0; 1; 1; 0; 1]) [0; 1; 1; 0; 1]
  /\ num_flips (world_with [0; 1; 1; 0; 1]) <= INT_MAX
  /\ scan_flips (num_flips (world_with [0; 1; 1; 0; 1])) (world_with [0; 1; 1; 0; 1])
     = Ret (analyze [0; 1; 1; 0; 1]) (world_with [0; 1; 1; 0; 1])
  /\ total_heads (analyze [0; 1; 1; 0; 1]) + total_tails (analyze [0; 1; 1; 0; 1])
     = num_flips (world_with [0; 1; 1; 0; 1])
  /\ total_heads (analyze [0; 1; 1; 0; 1]) = Z.of_nat (count_heads [0; 1; 1; 0; 1])
  /\ total_tails (analyze [0; 1; 1; 0; 1]) = Z.of_nat (count_tails [0; 1; 1; 0; 1]).
Proof.
  assert (Hb : holds_buffer (world_with [0; 1; 1; 0; 1]) [0; 1; 1; 0; 1]).
  { exists 0%nat. repeat split; reflexivity. }
  assert (Hn : num_flips (world_with [0; 1; 1; 0; 1]) <= INT_MAX).
  { vm_compute. discriminate. }
  split; [exact Hb|]. split; [exact Hn|].
  apply (totals_add_up (world_with [0; 1; 1; 0; 1]) [0; 1; 1; 0; 1] Hb Hn).
Defined.

Lemma stats_step_heads_trigger c :
  0 <= current_heads_streak c < INT_MAX ->
  heads_sequences (stats_step HEADS c)
  = if current_heads_streak c =? 4 then incr (heads_sequences c)
    else heads_sequences c.
Proof.
  intros B. assert (INT_MIN <= 0) by (unfold INT_MIN; lia).
  unfold stats_step, SEQUENCE_LENGTH. cbn [Z.eqb HEADS heads_sequences].
  rewrite incr_small by lia.
  destruct (Z.eqb_spec (current_heads_streak c + 1) 5),
           (Z.eqb_spec (current_heads_streak c) 4); lia || done.
Qed.

Lemma stats_step_tails_trigger c :
  0 <= current_tails_streak c < INT_MAX ->
  tails_sequences (stats_step TAILS c)
  = if current_tails_streak c =? 4 then incr (tails_sequences c)
    else tails_sequences c.
Proof.
  intros B. assert (INT_MIN <= 0) by (unfold INT_MIN; lia).
  unfold stats_step, SEQUENCE_LENGTH. cbn [Z.eqb Pos.eqb HEADS TAILS tails_sequences].
  rewrite incr_small by lia.
  destruct (Z.eqb_spec (current_tails_streak c + 1) 5),
           (Z.eqb_spec (current_tails_streak c) 4); lia || done.
Qed.

(** C1: for every non-empty buffer of outcomes, the run count the scan of
    [statistics] reaches for an outcome is the number of maximal runs of
    that outcome of length at least 5.  A maximal run standing alone
    contributes 1 when its length is 5 or more (so for 5, 10 and 12) and 0
    when it is shorter (so for 4), in the count of maximal runs and in the
    scan alike; a step of the scan raises a run count only when it takes the
    streak of that outcome from 4 to 5, and never on the other outcome. *)
Theorem run_count_is_long_runs (w : world) (buf : list Z) :
  holds_buffer w buf ->
  buf <> [] ->
  Forall is_outcome buf ->
  num_flips w <= INT_MAX ->
  scan_flips (num_flips w) w = Ret (analyze buf) w
  /\ heads_sequences (analyze buf) = Z.of_nat (long_runs HEADS buf)
  /\ tails_sequences (analyze buf) = Z.of_nat (long_runs TAILS buf)
  /\ (forall o n, long_runs o (replicate n o) = if (5 <=? n)%nat then 1%nat else 0%nat)
  /\ (forall n, Z.of_nat n <= INT_MAX ->
        heads_sequences (analyze (replicate n HEADS)) = (if (5 <=? n)%nat then 1 else 0)
        /\ tails_sequences (analyze (replicate n TAILS)) = (if (5 <=? n)%nat then 1 else 0))
  /\ (forall c, 0 <= current_heads_streak c < INT_MAX ->
        heads_sequences (stats_step HEADS c)
        = if current_heads_streak c =? 4 then incr (heads_sequences c)
          else heads_sequences c)
  /\ (forall c, 0 <= current_tails_streak c < INT_MAX ->
        tails_sequences (stats_step TAILS c)
        = if current_tails_streak c =? 4 then incr (tails_sequences c)
          else tails_sequences c)
  /\ (forall c, heads_sequences (stats_step TAILS c) = heads_sequences c
                /\ tails_sequences (stats_step HEADS c) = tails_sequences c).
Proof.
  intros Hb _ Hout Hn.
  split; [by apply scan_flips_spec|].
  destruct Hb as (a & _ & _ & Hlen). rewrite Hlen in Hn.
  split; [by apply analyze_heads_sequences|].
  split; [by apply analyze_tails_sequences|].
  split; [intros o n; apply long_runs_replicate|].
  split.
  { intros n Bn. split.
    - rewrite analyze_heads_sequences by (by rewrite length_replicate).
      rewrite long_runs_replicate. by destruct (5 <=? n)%nat.
    - rewrite analyze_tails_sequences.
      + rewrite long_runs_replicate. by destruct (5 <=? n)%nat.
      + apply Forall_replicate. by right.
      + by rewrite length_replicate. }
  split; [apply stats_step_heads_trigger|].
  split; [apply stats_step_tails_trigger|].
  intros c. split; reflexivity.
Qed.

Lemma run_count_is_long_runs_witness :
  let buf := replicate 12 HEADS ++ [TAILS] ++ replicate 4 HEADS ++ replicate 5 TAILS in
  holds_buffer (world_with buf) buf
  /\ buf <> []
  /\ Forall is_outcome buf
  /\ num_flips (world_with buf) <= INT_MAX
  /\ scan_flips (num_flips (world_with buf)) (world_with buf)
     = Ret (analyze buf) (world_with buf)
  /\ heads_sequences (analyze buf) = 1
  /\ tails_sequences (analyze buf) = 1.
Proof.
  intros buf.
  assert (Hb : holds_buffer (world_with buf) buf).
  { exists 0%nat. repeat split; reflexivity. }
  assert (Hne : buf <> []) by discriminate.
  assert (Hout : Forall is_outcome buf).
  { repeat constructor; (by left) || (by right). }
  assert (Hn : num_flips (world_with buf) <= INT_MAX).
  { vm_compute. discriminate. }
  destruct (run_count_is_long_runs (world_with buf) buf Hb Hne Hout Hn)
    as (H1 & H2 & H3 & _).
  repeat split; assumption.
Defined.

(** ** [get_valid_input] *)

Lemma scan_int_cases ls :
  scan_int ls = (EOF, None, [])
  \/ (exists rest, scan_int ls = (0, None, Junk :: rest)
                   /\ (length rest < length ls)%nat)
  \/ (exists z tl rest, scan_int ls = (1, Some z, tl :: rest)
                        /\ (length rest < length ls)%nat).
Proof.
  induction ls as [|[| |z tl] ls IH]; cbn [scan_int length].
  - by left.
  - destruct IH as [H|[(rest & H & Hlen)|(z & tl & rest & H & Hlen)]].
    + by left.
    + right. left. exists rest. split; [done|lia].
    + right. right. exists z, tl, rest. split; [done|lia].
  - right. left. exists ls. split; [done|lia].
  - right. right. exists (int_of_decimal z), tl, ls. split; [done|lia].
Qed.

(** A number that fits an [int] is stored as it is. *)
Lemma int_of_decimal_fits z : fits_int z -> int_of_decimal z = z.
Proof.
  unfold fits_int, int_of_decimal, LONG_MIN, LONG_MAX, INT_MIN, INT_MAX.
  intros Hz. rewrite Z.min_r, Z.max_r by lia.
  apply wrap_int_id. unfold INT_MIN, INT_MAX. lia.
Qed.

Section Reader.

(** The bounds of the call. *)
Variables (min max : Z).

Lemma get_valid_input_accept w z tl rest :
  stdin w = Num z tl :: rest ->
  min <= int_of_decimal z <= max ->
  get_valid_input min max w = Ret (int_of_decimal z) (set_stdin rest w).
Proof.
  intros Hin Hz. unfold get_valid_input. rewrite Hin.
  cbn [length get_valid_input_loop]. unfold bind at 1, scanf_d.
  rewrite Hin. cbn [scan_int Z.eqb Pos.eqb].
  destruct (Z.ltb_spec (int_of_decimal z) min); [lia|].
  destruct (Z.gtb_spec (int_of_decimal z) max); [lia|].
  reflexivity.
Qed.

Lemma get_valid_input_reject w l rest :
  stdin w = l :: rest ->
  rejected min max l ->
  get_valid_input min max w
  = get_valid_input min max (after_rejections min max 1 rest w).
Proof.
  intros Hin [->|(z & tl & -> & Hz)]; unfold get_valid_input at 1; rewrite Hin;
    cbn [length get_valid_input_loop]; unfold bind at 1, scanf_d;
    rewrite Hin; cbn [scan_int Z.eqb Pos.eqb].
  - reflexivity.
  - assert ((int_of_decimal z <? min) || (int_of_decimal z >? max) = true) as ->.
    { destruct (Z.ltb_spec (int_of_decimal z) min),
               (Z.gtb_spec (int_of_decimal z) max); simpl; lia || done. }
    reflexivity.
Qed.


Lemma after_rejections_S k l rest w :
  after_rejections min max 1 rest (after_rejections min max k (l :: rest) w)
  = after_rejections min max (S k) rest w.
Proof.
  unfold after_rejections. cbn [stdout set_stdout set_stdin].
  rewrite <- app_assoc.
  change (replicate 1 (range_message min max)) with [range_message min max].
  by rewrite <- replicate_S_end.
Qed.

Lemma after_rejections_0 w : after_rejections min max 0 (stdin w) w = w.
Proof.
  unfold after_rejections. cbn [replicate]. rewrite app_nil_r. by destruct w.
Qed.

Lemma get_valid_input_rejections bad : forall k w more,
  Forall (rejected min max) bad ->
  get_valid_input min max (after_rejections min max k (bad ++ more) w)
  = get_valid_input min max (after_rejections min max (k + length bad) more w).
Proof.
  induction bad as [|l bad IH]; intros k w more Hbad.
  - by rewrite Nat.add_0_r.
  - apply Forall_cons in Hbad as [Hl Hbad].
    rewrite (get_valid_input_reject _ l (bad ++ more)) by done.
    cbn [app]. rewrite after_rejections_S, IH by done.
    cbn [length]. by rewrite Nat.add_succ_r.
Qed.

Lemma after_rejections_compose j k ls ls' w :
  after_rejections min max k ls (after_rejections min max j ls' w)
  = after_rejections min max (j + k) ls w.
Proof.
  unfold after_rejections. cbn [stdout set_stdout set_stdin].
  by rewrite <- app_assoc, <- replicate_add.
Qed.

(** Whatever the input, the loop of [get_valid_input] either returns a
    value of the range, having consumed at least a line, or is caught at
    the end of the input; on the way it has only printed range prompts and
    consumed input. *)
Lemma get_valid_input_loop_post fuel : forall w,
  (length (stdin w) < fuel)%nat ->
  match get_valid_input_loop fuel min max w with
  | Ret z w' =>
      min <= z <= max
      /\ exists k ls, w' = after_rejections min max k ls w
                      /\ (length ls < length (stdin w))%nat
  | Spin w' => exists k, w' = after_rejections min max (S k) [] w
  | _ => False
  end.
Proof.
  induction fuel as [|fuel IH]; intros w Hfuel; [lia|].
  cbn [get_valid_input_loop]. unfold bind at 1, scanf_d.
  destruct (scan_int_cases (stdin w))
    as [H|[(rest & H & Hlen)|(z & tl & rest & H & Hlen)]]; rewrite H.
  - cbn [Z.eqb EOF]. unfold bind, printf, spin. by exists 0%nat.
  - cbn [Z.eqb EOF]. unfold bind at 1, printf. unfold bind at 1, clear_input_buffer.
    cbn [stdin set_stdin set_stdout tail].
    specialize (IH (after_rejections min max 1 rest w)).
    change (set_stdin rest _) with (after_rejections min max 1 rest w).
    destruct (get_valid_input_loop fuel min max (after_rejections min max 1 rest w))
      as [v w'| | w'| |]; try (apply IH; simpl; lia).
    + destruct IH as (Hv & k & ls & -> & Hls); [simpl; lia|].
      split; [done|]. exists (1 + k)%nat, ls.
      rewrite after_rejections_compose. split; [done|]. simpl in Hls. lia.
    + destruct IH as (k & ->); [simpl; lia|].
      exists (1 + k)%nat. by rewrite after_rejections_compose.
  - cbn [Z.eqb Pos.eqb].
    destruct ((z <? min) || (z >? max)) eqn:E.
    + unfold bind at 1, printf. unfold bind at 1, clear_input_buffer.
      cbn [stdin set_stdin set_stdout tail].
      specialize (IH (after_rejections min max 1 rest w)).
      change (set_stdin rest _) with (after_rejections min max 1 rest w).
      destruct (get_valid_input_loop fuel min max (after_rejections min max 1 rest w))
        as [v w'| | w'| |]; try (apply IH; simpl; lia).
      * destruct IH as (Hv & k & ls & -> & Hls); [simpl; lia|].
        split; [done|]. exists (1 + k)%nat, ls.
        rewrite after_rejections_compose. split; [done|]. simpl in Hls. lia.
      * destruct IH as (k & ->); [simpl; lia|].
        exists (1 + k)%nat. by rewrite after_rejections_compose.
    + unfold bind, clear_input_buffer, ret. cbn [stdin set_stdin tail].
      apply orb_false_iff in E as [E1 E2].
      apply Z.ltb_ge in E1. rewrite Z.gtb_ltb in E2. apply Z.ltb_ge in E2.
      split; [lia|]. exists 0%nat, rest. split; [|done].
      unfold after_rejections. cbn [replicate]. by rewrite app_nil_r, set_stdout_same.
Qed.

Lemma get_valid_input_post w :
  match get_valid_input min max w with
  | Ret z w' =>
      min <= z <= max
      /\ exists k ls, w' = after_rejections min max k ls w
                      /\ (length ls < length (stdin w))%nat
  | Spin w' => exists k, w' = after_rejections min max (S k) [] w
  | _ => False
  end.
Proof. apply get_valid_input_loop_post. lia. Qed.

End Reader.

(** ** [generate_flips] *)

Lemma length_release w : length (release w) = length (heap w).
Proof. unfold release. destruct (flip_results w); [apply length_insert|done]. Qed.

Lemma length_fresh_flips w n : length (fresh_flips w n) = n.
Proof. unfold fresh_flips. by rewrite length_fmap, length_seq. Qed.

Lemma fresh_flips_S w n :
  fresh_flips w (S n)
  = fresh_flips w n ++ [Z.rem (Z.of_N (rand_seq w (rand_pos w + n)%nat)) 2].
Proof. unfold fresh_flips. by rewrite seq_S, fmap_app. Qed.

Lemma fresh_flips_lookup w n i :
  (i < n)%nat ->
  fresh_flips w n !! i = Some (Z.rem (Z.of_N (rand_seq w (rand_pos w + i)%nat)) 2).
Proof.
  intros Hi. unfold fresh_flips.
  by rewrite list_lookup_fmap, lookup_seq_lt.
Qed.

Lemma fresh_flips_outcomes w n : Forall is_outcome (fresh_flips w n).
Proof.
  unfold fresh_flips. apply Forall_fmap, Forall_forall. intros i _.
  unfold is_outcome, HEADS, TAILS. cbn [compose].
  pose proof (N2Z.is_nonneg (rand_seq w (rand_pos w + i)%nat)) as Hpos.
  rewrite Z.rem_mod_nonneg by lia.
  pose proof (Z.mod_pos_bound (Z.of_N (rand_seq w (rand_pos w + i)%nat)) 2). lia.
Qed.

(** One iteration of the filling loop. *)
Lemma fill_step w n j :
  (j < n)%nat ->
  (let* r := rand in store_flip (Z.of_nat j) (Z.rem r 2)) (filling w n j)
  = Ret tt (filling w n (S j)).
Proof.
  intros Hj. unfold bind, rand, store_flip.
  cbn [flip_results heap set_rand_pos filling rand_seq rand_pos].
  rewrite lookup_app_r by (rewrite length_release; lia).
  rewrite length_release, Nat.sub_diag. cbn [lookup list_lookup].
  rewrite length_app, length_fmap, length_fresh_flips, length_replicate.
  destruct (Z.ltb_spec (Z.of_nat j) 0); [lia|].
  destruct (Z.leb_spec (Z.of_nat (j + (n - j))) (Z.of_nat j)); [lia|].
  cbn [orb]. unfold filling, set_heap, set_rand_pos.
  cbn [flip_results num_flips heap stdin stdout stderr rand_seq rand_pos
       malloc_fails malloc_calls].
  f_equal. f_equal; [|lia].
  rewrite insert_app_r_alt by (rewrite length_release; lia).
  rewrite length_release, Nat.sub_diag. cbn [insert list_insert]. do 2 f_equal.
  rewrite Nat2Z.id, insert_app_r_alt by (rewrite length_fmap, length_fresh_flips; lia).
  rewrite length_fmap, length_fresh_flips, Nat.sub_diag.
  replace (n - j)%nat with (S (n - S j)) by lia. cbn [replicate insert list_insert].
  rewrite fresh_flips_S, fmap_app, <- app_assoc. reflexivity.
Qed.

Lemma fill_loop w n :
  for_loop n 0 (fun i _ => let* r := rand in store_flip i (Z.rem r 2)) tt
    (filling w n 0)
  = Ret tt (filling w n n).
Proof.
  destruct (for_loop_inv (fun j _ w' => w' = filling w n j)
              (fun i _ => let* r := rand in store_flip i (Z.rem r 2))
              n 0%nat tt (filling w n 0)) as ([] & w' & Hl & ->).
  - done.
  - intros j [] w' Hj ->. exists tt, (filling w n (S j)).
    split; [apply fill_step; lia|done].
  - exact Hl.
Qed.

Lemma malloc_cells n : Z.to_nat (sizeof_int * n / sizeof_int) = Z.to_nat n.
Proof. unfold sizeof_int. by rewrite Z.mul_comm, Z.div_mul. Qed.

Lemma generate_flips_run w n w1 :
  get_valid_input MIN_FLIPS MAX_FLIPS (gen_header w) = Ret n w1 ->
  pointer_ok w1 ->
  generate_flips w
  = if malloc_fails w1 (malloc_calls w1) then Exit EXIT_FAILURE (alloc_failed w1)
    else Ret n (generated n w1).
Proof.
  intros Hread Hptr. unfold generate_flips.
  unfold bind at 1. unfold printf at 1. unfold bind at 1. unfold printf at 1.
  cbn [stdout set_stdout].
  rewrite <- app_assoc. cbn [app].
  change (set_stdout _ (set_stdout _ w)) with (gen_header w).
  rewrite (bind_Ret _ _ _ _ _ Hread).
  unfold bind at 1. unfold get_flip_results.
  assert (Hrel :
    (match flip_results w1 with
     | Some _ => free (flip_results w1) >> assign_flip_results None
     | None => ret tt
     end) w1 = Ret tt (set_flip_results None (set_heap (release w1) w1))).
  { unfold pointer_ok, release in *. destruct (flip_results w1) as [a|] eqn:E.
    - destruct Hptr as [cells Hc]. unfold bind, free. rewrite Hc. reflexivity.
    - unfold ret. destruct w1. cbn in E. by subst. }
  rewrite (bind_Ret _ _ _ _ _ Hrel).
  unfold bind at 1. unfold malloc at 1.
  cbn [malloc_fails malloc_calls set_flip_results set_heap heap].
  destruct (malloc_fails w1 (malloc_calls w1)).
  - reflexivity.
  - unfold bind at 1. unfold assign_flip_results.
    rewrite malloc_cells, length_release.
    pose proof (fill_loop w1 (Z.to_nat n)) as Hfill.
    unfold filling at 1 in Hfill. rewrite Nat.sub_0_r, Nat.add_0_r in Hfill.
    cbn [fresh_flips seq fmap list_fmap app] in Hfill.
    cbn [set_flip_results set_malloc_calls set_heap flip_results num_flips heap stdin stdout stderr rand_seq rand_pos malloc_fails malloc_calls].
    rewrite (bind_Ret _ _ _ _ _ Hfill). reflexivity.
Qed.

(** ** [display_flips] *)

Lemma flip_to_string_outcome x :
  is_outcome x -> flip_to_string x <> "UNKNOWN"%string.
Proof. intros [->| ->]; discriminate. Qed.

Lemma plain_not_unknown fmt : ~ mentions_unknown (Printf fmt []).
Proof. simpl. tauto. Qed.

(** On a world that holds a buffer of outcomes, [display_flips] returns,
    having only read input and printed lines without "UNKNOWN". *)
Lemma display_flips_post w buf :
  holds_buffer w buf -> Forall is_outcome buf ->
  exists ls new,
    display_flips w = Ret tt (set_stdin ls (set_stdout (stdout w ++ new) w))
    /\ Forall (fun e => ~ mentions_unknown e) new.
Proof.
  intros (a & Hp & Hh & Hn) Hout.
  unfold display_flips. unfold bind at 1, get_num_flips.
  destruct (Z.eqb_spec (num_flips w) 0) as [E|E].
  - exists (stdin w), [Printf no_flips_yet []]. split.
    + unfold printf. by destruct w.
    + repeat constructor. apply plain_not_unknown.
  - rewrite Hn, Nat2Z.id.
    destruct (for_loop_inv
      (fun (j : nat) (_ : unit) w' =>
         exists ls new, w' = set_stdin ls (set_stdout (stdout w ++ new) w)
                        /\ Forall (fun e => ~ mentions_unknown e) new)
      (fun i (_ : unit) =>
         let* x := load_flip i in
         printf "%6d  |   %d   | %s\n" [AInt (i + 1); AInt x; AStr (flip_to_string x)] >>
         if (Z.rem (i + 1) PAUSE_INTERVAL =? 0) && (i <? Z.of_nat (length buf) - 1)
         then pause else ret tt)
      (length buf) 0%nat tt w) as ([] & w' & Hl & ls & new & -> & Hnew).
    + exists (stdin w), []. split; [|constructor].
      rewrite app_nil_r. by destruct w.
    + intros j [] w' Hj (ls & new & -> & Hnew).
      destruct (lookup_lt_is_Some_2 buf j) as [x Hx]; [lia|].
      assert (Hxo : is_outcome x).
      { eapply Forall_forall; [exact Hout|]. eapply list_elem_of_lookup_2, Hx. }
      rewrite (bind_Ret _ _ _ _ _
                 (load_flip_ok (set_stdin ls (set_stdout (stdout w ++ new) w))
                    a buf j x Hp Hh Hx)).
      unfold bind at 1, printf at 1. cbn [stdout set_stdout set_stdin].
      set (row := Printf "%6d  |   %d   | %s\n"
                    [AInt (Z.of_nat j + 1); AInt x; AStr (flip_to_string x)]).
      assert (Hrow : ~ mentions_unknown row).
      { simpl. intros [H|[H|[H|[]]]]; try discriminate.
        injection H as H. by apply (flip_to_string_outcome x). }
      destruct ((Z.rem (Z.of_nat j + 1) PAUSE_INTERVAL =? 0)
                && (Z.of_nat j <? Z.of_nat (length buf) - 1)).
      * exists tt. eexists. split; [reflexivity|].
        exists (tail ls), (new ++ [row; Printf "\nPress Enter to continue...\n" []]).
        split.
        -- unfold pause, bind, printf, clear_input_buffer.
           cbn [stdout stdin set_stdout set_stdin]. by rewrite <- !app_assoc.
        -- apply Forall_app. split; [done|]. repeat constructor; [done|].
           apply plain_not_unknown.
      * exists tt. eexists. split; [reflexivity|].
        exists ls, (new ++ [row]). split.
        -- unfold set_stdin, set_stdout. cbn. by rewrite <- app_assoc.
        -- apply Forall_app. split; [done|]. by repeat constructor.
    + change (Z.of_nat 0) with 0 in Hl.
      rewrite (bind_Ret _ _ _ _ _ Hl).
      exists ls, (new ++ [Printf "========================\n" [];
                          Printf "Total flips displayed: %d\n"
                                 [AInt (Z.of_nat (length buf))]]).
      split.
      * unfold bind, printf. cbn [stdout set_stdout set_stdin num_flips].
        by rewrite <- !app_assoc.
      * apply Forall_app. split; [done|].
        repeat constructor; [apply plain_not_unknown|].
        simpl. intros [H|[]]. discriminate.
Qed.

(** ** Rules for postconditions *)

Lemma post_bind {A B} (m : M A) (k : A -> M B) w
    (Q1 : A -> world -> Prop) (Q : B -> world -> Prop) E D :
  post (m w) Q1 E D ->
  (forall a w', Q1 a w' -> post (k a w') Q E D) ->
  post (bind m k w) Q E D.
Proof.
  intros Hm Hk. unfold bind. destruct (m w); simpl in *; auto.
Qed.

Lemma io_only_trans w1 w2 w3 : io_only w1 w2 -> io_only w2 w3 -> io_only w1 w3.
Proof.
  intros (ls & new & ->) (ls' & new' & ->). exists ls', (new ++ new').
  unfold set_stdin, set_stdout. cbn. by rewrite app_assoc.
Qed.

Lemma holds_buffer_io w w' buf : io_only w w' -> holds_buffer w buf -> holds_buffer w' buf.
Proof. intros (ls & new & ->) (a & H1 & H2 & H3). by exists a. Qed.

Lemma session_ok_io w w' : io_only w w' -> session_ok w -> session_ok w'.
Proof.
  intros Hio [[H1 H2]|(buf & Hb & Hout & Hn)].
  - left. destruct Hio as (ls & new & ->). done.
  - right. exists buf. split; [by eapply holds_buffer_io|]. split; [done|].
    destruct Hio as (ls & new & ->). done.
Qed.

Lemma after_rejections_io min max k ls w : io_only w (after_rejections min max k ls w).
Proof. by exists ls, (replicate k (range_message min max)). Qed.

Lemma printf_io fmt args w : exists w', printf fmt args w = Ret tt w' /\ io_only w w'.
Proof.
  eexists. split; [reflexivity|]. exists (stdin w), [Printf fmt args].
  unfold set_stdin, set_stdout. by destruct w.
Qed.

Lemma system_io cmd w : exists w', system cmd w = Ret tt w' /\ io_only w w'.
Proof.
  eexists. split; [reflexivity|]. exists (stdin w), [System cmd].
  unfold set_stdin, set_stdout. by destruct w.
Qed.

Lemma pause_io w : exists w', pause w = Ret tt w' /\ io_only w w'.
Proof.
  eexists. split; [reflexivity|].
  by exists (tail (stdin w)), [Printf "\nPress Enter to continue...\n" []].
Qed.

Lemma display_menu_io w : exists w', display_menu w = Ret tt w' /\ io_only w w'.
Proof.
  eexists. split; [reflexivity|]. eexists (stdin w), [_; _; _; _; _; _].
  unfold set_stdin, set_stdout. cbn. rewrite <- !app_assoc. cbn [app].
  by destruct w.
Qed.

(** An operation that returns having touched the streams only keeps the
    session invariant. *)
Lemma keeps_session_io {A} (m : M A) :
  (forall w, exists a w', m w = Ret a w' /\ io_only w w') -> keeps_session m.
Proof.
  intros Hm w Hok. destruct (Hm w) as (a & w' & -> & Hio). simpl.
  by apply (session_ok_io w).
Qed.

Lemma keeps_session_bind {A B} (m : M A) (k : A -> M B) :
  keeps_session m -> (forall a, keeps_session (k a)) -> keeps_session (bind m k).
Proof.
  intros Hm Hk w Hok. eapply post_bind; [apply Hm, Hok|].
  intros a w' Hok'. by apply Hk.
Qed.

Lemma keeps_session_ret {A} (a : A) : keeps_session (ret a).
Proof. intros w Hok. exact Hok. Qed.

Lemma keeps_session_printf fmt args : keeps_session (printf fmt args).
Proof.
  apply keeps_session_io. intros w. exists tt.
  destruct (printf_io fmt args w) as (w' & H & Hio). eauto.
Qed.

Lemma keeps_session_pause : keeps_session pause.
Proof.
  apply keeps_session_io. intros w. exists tt.
  destruct (pause_io w) as (w' & H & Hio). eauto.
Qed.

Lemma keeps_session_clear_screen : keeps_session clear_screen.
Proof.
  apply keeps_session_io. intros w. exists tt.
  destruct (system_io "clear" w) as (w' & H & Hio). eauto.
Qed.

Lemma keeps_session_display_menu : keeps_session display_menu.
Proof.
  apply keeps_session_io. intros w. exists tt.
  destruct (display_menu_io w) as (w' & H & Hio). eauto.
Qed.

Lemma keeps_session_get_valid_input min max :
  keeps_session (get_valid_input min max).
Proof.
  intros w Hok. pose proof (get_valid_input_post min max w) as H.
  destruct (get_valid_input min max w) as [z w'| |w'| |]; simpl; try done.
  - destruct H as (_ & k & ls & -> & _).
    eapply session_ok_io; [apply after_rejections_io|done].
  - destruct H as (k & ->).
    eapply session_ok_io; [apply after_rejections_io|done].
Qed.

(** ** The operations of the menu on a session *)

Lemma display_flips_no_data w :
  num_flips w = 0 ->
  display_flips w = Ret tt (set_stdout (stdout w ++ [Printf no_flips_yet []]) w).
Proof.
  intros H. unfold display_flips, bind, get_num_flips. by rewrite H.
Qed.

Lemma statistics_no_data w :
  num_flips w = 0 ->
  statistics w
  = Ret tt (set_stdout
              (stdout w ++ [Printf no_flips_yet []; Printf generate_first []]) w).
Proof.
  intros H. unfold statistics, bind, get_num_flips. rewrite H.
  cbn [Z.eqb]. unfold printf. cbn [stdout set_stdout].
  by rewrite <- app_assoc.
Qed.

Lemma holds_buffer_nonempty w buf :
  holds_buffer w buf -> MIN_FLIPS <= num_flips w -> buf <> [].
Proof.
  intros (a & _ & _ & Hn) Hmin ->. unfold MIN_FLIPS in Hmin. simpl in Hn. lia.
Qed.

Lemma display_flips_session w :
  session_ok w ->
  exists ls new,
    display_flips w = Ret tt (set_stdin ls (set_stdout (stdout w ++ new) w))
    /\ Forall (fun e => ~ mentions_unknown e) new.
Proof.
  intros [[_ H0]|(buf & Hb & Hout & _)].
  - exists (stdin w), [Printf no_flips_yet []]. split.
    + rewrite display_flips_no_data by done. by destruct w.
    + repeat constructor. apply plain_not_unknown.
  - by apply (display_flips_post w buf).
Qed.

Lemma keeps_session_display_flips : keeps_session display_flips.
Proof.
  intros w Hok. destruct (display_flips_session w Hok) as (ls & new & -> & _).
  simpl. eapply session_ok_io; [|exact Hok]. by exists ls, new.
Qed.

Lemma keeps_session_statistics : keeps_session statistics.
Proof.
  intros w Hok. pose proof Hok as [[_ H0]|(buf & Hb & _ & Hn)].
  - rewrite statistics_no_data by done. simpl.
    eapply session_ok_io; [|exact Hok]. eexists (stdin w), _.
    unfold set_stdin, set_stdout. by destruct w.
  - rewrite (statistics_spec w buf Hb) by (eapply holds_buffer_nonempty; [done|lia]).
    simpl. eapply session_ok_io; [|exact Hok]. eexists (stdin w), _.
    unfold set_stdin, set_stdout. by destruct w.
Qed.

Lemma generate_flips_spin w w1 :
  get_valid_input MIN_FLIPS MAX_FLIPS (gen_header w) = Spin w1 ->
  generate_flips w = Spin w1.
Proof.
  intros Hread. unfold generate_flips.
  unfold bind at 1. unfold printf at 1. unfold bind at 1. unfold printf at 1.
  cbn [stdout set_stdout].
  rewrite <- app_assoc. cbn [app].
  change (set_stdout _ (set_stdout _ w)) with (gen_header w).
  unfold bind. by rewrite Hread.
Qed.

Lemma gen_header_io w : io_only w (gen_header w).
Proof.
  eexists (stdin w), _. unfold gen_header, set_stdin, set_stdout. by destruct w.
Qed.

Lemma session_ok_pointer_ok w : session_ok w -> pointer_ok w.
Proof.
  unfold pointer_ok. intros [[-> _]|(buf & (a & -> & Hh & _) & _)]; eauto.
Qed.

Lemma pointer_ok_io w w' : io_only w w' -> pointer_ok w -> pointer_ok w'.
Proof. intros (ls & new & ->) H. exact H. Qed.

Lemma generated_heap n w :
  heap (generated n w)
  = release w ++ [Live (Some <$> fresh_flips w (Z.to_nat n))].
Proof.
  unfold generated, filling. cbn [heap]. by rewrite Nat.sub_diag, app_nil_r.
Qed.

(** After a generation of [n >= 1] flips and the assignment of [main], the
    session holds the fresh flips. *)
Lemma holds_buffer_announced n w :
  0 <= n ->
  holds_buffer (announced n (generated n w)) (fresh_flips w (Z.to_nat n)).
Proof.
  intros Hn. exists (length (heap w)). split; [done|]. split.
  - change (heap (announced n (generated n w))) with (heap (generated n w)).
    rewrite generated_heap, lookup_app_r by (rewrite length_release; lia).
    by rewrite length_release, Nat.sub_diag.
  - cbn. rewrite length_fresh_flips. lia.
Qed.

Lemma session_ok_announced n w :
  MIN_FLIPS <= n <= MAX_FLIPS -> session_ok (announced n (generated n w)).
Proof.
  intros Hn. right. exists (fresh_flips w (Z.to_nat n)).
  split; [apply holds_buffer_announced; unfold MIN_FLIPS in Hn; lia|].
  split; [apply fresh_flips_outcomes|done].
Qed.

(** Case 1 of the menu, from the world [w1] in which the count was read. *)
Lemma dispatch_generate w n w1 :
  get_valid_input MIN_FLIPS MAX_FLIPS (gen_header w) = Ret n w1 ->
  pointer_ok w1 ->
  dispatch 1 w
  = if malloc_fails w1 (malloc_calls w1) then Exit EXIT_FAILURE (alloc_failed w1)
    else Ret tt (announced n (generated n w1)).
Proof.
  intros Hread Hptr. unfold dispatch. cbn [Z.eqb Pos.eqb].
  unfold bind at 1. rewrite (generate_flips_run w n w1 Hread Hptr).
  destruct (malloc_fails w1 (malloc_calls w1)); [done|].
  pose proof (get_valid_input_post MIN_FLIPS MAX_FLIPS (gen_header w)) as Hpost.
  rewrite Hread in Hpost. destruct Hpost as [Hn _].
  unfold bind, assign_num_flips.
  destruct (Z.gtb_spec n 0); [reflexivity|unfold MIN_FLIPS in Hn; lia].
Qed.

Lemma keeps_session_dispatch choice : keeps_session (dispatch choice).
Proof.
  unfold dispatch.
  destruct (choice =? 1) eqn:E1; [|destruct (choice =? 2); [|destruct (choice =? 3);
    [|destruct (choice =? 0)]]].
  - intros w Hok.
    pose proof (get_valid_input_post MIN_FLIPS MAX_FLIPS (gen_header w)) as Hpost.
    destruct (get_valid_input MIN_FLIPS MAX_FLIPS (gen_header w))
      as [n w1| |w1| |] eqn:Hread; try done.
    + destruct Hpost as (Hn & k & ls & Hw1 & _).
      assert (Hio : io_only w w1).
      { rewrite Hw1. eapply io_only_trans; [apply gen_header_io|apply after_rejections_io]. }
      pose proof (dispatch_generate w n w1 Hread
                    (pointer_ok_io _ _ Hio (session_ok_pointer_ok _ Hok))) as Hd.
      unfold dispatch in Hd. cbn [Z.eqb Pos.eqb] in Hd. rewrite Hd.
      destruct (malloc_fails w1 (malloc_calls w1)); simpl.
      * by split.
      * by apply session_ok_announced.
    + unfold bind at 1. rewrite (generate_flips_spin w w1 Hread). simpl.
      destruct Hpost as (k & ->).
      eapply session_ok_io; [|exact Hok].
      eapply io_only_trans; [apply gen_header_io|apply after_rejections_io].
  - apply keeps_session_display_flips.
  - apply keeps_session_statistics.
  - apply keeps_session_printf.
  - apply keeps_session_printf.
Qed.

Lemma keeps_session_menu_turn : keeps_session menu_turn.
Proof.
  unfold menu_turn.
  apply keeps_session_bind; [apply keeps_session_display_menu|intros _].
  apply keeps_session_bind; [apply keeps_session_printf|intros _].
  apply keeps_session_bind; [apply keeps_session_get_valid_input|intros choice].
  apply keeps_session_bind; [apply keeps_session_printf|intros _].
  apply keeps_session_bind; [apply keeps_session_dispatch|intros _].
  apply keeps_session_bind; [|intros _; apply keeps_session_ret].
  destruct (negb (choice =? 0)).
  - apply keeps_session_bind; [apply keeps_session_pause|intros _].
    apply keeps_session_clear_screen.
  - apply keeps_session_ret.
Qed.

(** ** Reading through rejected lines *)

Lemma get_valid_input_reads min max w bad z tl rest :
  stdin w = bad ++ Num z tl :: rest ->
  Forall (rejected min max) bad ->
  min <= z <= max ->
  fits_int z ->
  get_valid_input min max w = Ret z (after_rejections min max (length bad) rest w).
Proof.
  intros Hin Hbad Hz Hfit.
  rewrite <- (after_rejections_0 min max w) at 1. rewrite Hin.
  rewrite get_valid_input_rejections by done.
  rewrite (get_valid_input_accept min max _ z tl rest);
    rewrite ?int_of_decimal_fits; done.
Qed.

(** A count of the range of [generate_flips] fits an [int]. *)
Lemma count_fits n : MIN_FLIPS <= n <= MAX_FLIPS -> fits_int n.
Proof. unfold MIN_FLIPS, MAX_FLIPS, fits_int, INT_MIN, INT_MAX. lia. Qed.


Lemma generate_flips_reads w bad n tl rest :
  stdin w = bad ++ Num n tl :: rest ->
  Forall (rejected MIN_FLIPS MAX_FLIPS) bad ->
  MIN_FLIPS <= n <= MAX_FLIPS ->
  pointer_ok w ->
  generate_flips w
  = if malloc_fails w (malloc_calls w)
    then Exit EXIT_FAILURE (alloc_failed (count_read (length bad) rest w))
    else Ret n (generated n (count_read (length bad) rest w)).
Proof.
  intros Hin Hbad Hn Hptr.
  apply (generate_flips_run w n (count_read (length bad) rest w)).
  - apply get_valid_input_reads with (tl := tl); [done..|by apply count_fits].
  - exact Hptr.
Qed.

Lemma released_block w a :
  pointer_ok w -> flip_results w = Some a -> release w !! a = Some Freed.
Proof.
  unfold pointer_ok, release. intros Hptr E. rewrite E in *.
  destruct Hptr as [cells Hc]. apply list_lookup_insert_eq.
  by eapply lookup_lt_Some.
Qed.

(** * Generation *)

(** C3: for every count in [1, 100000], a generation whose allocation
    succeeds returns the count and leaves [flip_results] on a fresh array of
    exactly [count] cells, each holding HEADS (0) or TAILS (1); slot [i] is
    [rand() % 2] of the [i]-th call to [rand] made by the generation, which
    makes [count] calls in all.  The count may be entered after any number
    of rejected lines. *)
Theorem generation_fills_count (w : world) (bad : list line) (count : Z)
    (tl : line) (rest : list line) :
  MIN_FLIPS <= count <= MAX_FLIPS ->
  stdin w = bad ++ Num count tl :: rest ->
  Forall (rejected MIN_FLIPS MAX_FLIPS) bad ->
  pointer_ok w ->
  malloc_fails w (malloc_calls w) = false ->
  let w' := generated count (count_read (length bad) rest w) in
  let buf := fresh_flips w (Z.to_nat count) in
  generate_flips w = Ret count w'
  /\ flip_results w' = Some (length (heap w))
  /\ heap w' !! length (heap w) = Some (Live (Some <$> buf))
  /\ Z.of_nat (length buf) = count
  /\ Forall is_outcome buf
  /\ (forall i, (i < Z.to_nat count)%nat ->
        buf !! i = Some (Z.rem (Z.of_N (rand_seq w (rand_pos w + i)%nat)) 2))
  /\ rand_pos w' = (rand_pos w + Z.to_nat count)%nat.
Proof.
  intros Hcount Hin Hbad Hptr Hmalloc w' buf.
  split.
  { rewrite (generate_flips_reads w bad count tl rest) by done.
    by rewrite Hmalloc. }
  split; [done|]. split.
  { subst w'. rewrite generated_heap.
    rewrite lookup_app_r by (rewrite length_release; done).
    by rewrite length_release, Nat.sub_diag. }
  split.
  { subst buf. rewrite length_fresh_flips. unfold MIN_FLIPS in Hcount. lia. }
  split; [apply fresh_flips_outcomes|].
  split; [intros i Hi; by apply fresh_flips_lookup|done].
Qed.

Lemma generation_fills_count_witness :
  let w := initial_world [Num 0 Blank; Junk; Num 100001 Blank; Num 6 Blank; Blank]
             sample_rand (fun _ => false) in
  generate_flips w
  = Ret 6 (generated 6 (count_read 3 [Blank] w))
  /\ heap (generated 6 (count_read 3 [Blank] w)) !! 0%nat
     = Some (Live (Some <$> fresh_flips w 6))
  /\ fresh_flips w 6 = [0; 0; 0; 0; 1; 1].
Proof.
  intros w.
  assert (Hbad : Forall (rejected MIN_FLIPS MAX_FLIPS)
                   [Num 0 Blank; Junk; Num 100001 Blank]).
  { apply List.Forall_cons; [|apply List.Forall_cons; [|apply List.Forall_cons;
      [|apply List.Forall_nil]]].
    - right. exists 0, Blank. split; [reflexivity|]. left. reflexivity.
    - left. reflexivity.
    - right. exists 100001, Blank. split; [reflexivity|]. right. reflexivity. }
  assert (Hcount : MIN_FLIPS <= 6 <= MAX_FLIPS) by (split; discriminate).
  destruct (generation_fills_count w [Num 0 Blank; Junk; Num 100001 Blank] 6
              Blank [Blank] Hcount eq_refl Hbad I eq_refl)
    as (H1 & _ & H3 & _).
  split; [exact H1|]. split; [exact H3|]. reflexivity.
Defined.

(** C7: when [malloc] fails for the count that was read, [generate_flips]
    writes "Memory allocation error!" to [stderr] and calls
    [exit(EXIT_FAILURE)], a non-zero status: nothing that follows in the
    program runs.  At that point [flip_results] is NULL, the block it
    pointed to before has been freed and nothing else was printed. *)
Theorem allocation_failure_is_fatal (w : world) (bad : list line) (count : Z)
    (tl : line) (rest : list line) :
  MIN_FLIPS <= count <= MAX_FLIPS ->
  stdin w = bad ++ Num count tl :: rest ->
  Forall (rejected MIN_FLIPS MAX_FLIPS) bad ->
  pointer_ok w ->
  malloc_fails w (malloc_calls w) = true ->
  let w' := alloc_failed (count_read (length bad) rest w) in
  generate_flips w = Exit EXIT_FAILURE w'
  /\ (forall B (k : unit -> M B), bind (dispatch 1) k w = Exit EXIT_FAILURE w')
  /\ EXIT_FAILURE <> 0
  /\ stderr w' = stderr w ++ [Printf "Memory allocation error!\n" []]
  /\ stdout w' = stdout (count_read (length bad) rest w)
  /\ flip_results w' = None
  /\ (forall a, flip_results w = Some a -> heap w' !! a = Some Freed)
  /\ length (heap w') = length (heap w).
Proof.
  intros Hcount Hin Hbad Hptr Hmalloc w'.
  assert (Hgen : generate_flips w = Exit EXIT_FAILURE w').
  { rewrite (generate_flips_reads w bad count tl rest) by done.
    by rewrite Hmalloc. }
  split; [exact Hgen|]. split.
  { intros B k. unfold bind at 1, dispatch. cbn [Z.eqb Pos.eqb].
    unfold bind at 1. by rewrite Hgen. }
  split; [discriminate|]. split; [done|]. split; [done|]. split; [done|].
  split.
  - intros a Ha. by apply (released_block w a).
  - apply (length_release w).
Qed.

Lemma allocation_failure_is_fatal_witness :
  let w := World (Some 0%nat) 3 [Live [Some 0; Some 1; Some 1]]
                 [Num 4 Blank] [] [] sample_rand 0%nat (fun _ => true) 0%nat in
  generate_flips w = Exit 1 (alloc_failed (count_read 0 [] w))
  /\ flip_results (alloc_failed (count_read 0 [] w)) = None
  /\ heap (alloc_failed (count_read 0 [] w)) = [Freed]
  /\ stderr (alloc_failed (count_read 0 [] w))
     = [Printf "Memory allocation error!\n" []].
Proof.
  intros w.
  assert (Hcount : MIN_FLIPS <= 4 <= MAX_FLIPS) by (split; discriminate).
  assert (Hptr : pointer_ok w).
  { exists [Some 0; Some 1; Some 1]. reflexivity. }
  destruct (allocation_failure_is_fatal w [] 4 Blank [] Hcount eq_refl
              (List.Forall_nil _) Hptr eq_refl) as (H1 & _ & _ & H4 & _ & H6 & _).
  split; [exact H1|]. split; [exact H6|]. split; [reflexivity|exact H4].
Defined.

(** C5: a successful generation replaces the buffer of the session as a
    whole.  After two consecutive generations of the same count [n], the
    session holds the flips of the second one only ([rand] calls [n] to
    [2n - 1] from the start), the array of the first generation has been
    freed, and [statistics] prints the report of the second buffer: nothing
    in it comes from the first. *)
Theorem regeneration_replaces_buffer (w : world) (n : Z) (t1 t2 : line)
    (rest : list line) :
  MIN_FLIPS <= n <= MAX_FLIPS ->
  stdin w = Num n t1 :: Num n t2 :: rest ->
  session_ok w ->
  malloc_fails w (malloc_calls w) = false ->
  malloc_fails w (S (malloc_calls w)) = false ->
  let second :=
    (fun i => Z.rem (Z.of_N (rand_seq w (rand_pos w + Z.to_nat n + i)%nat)) 2)
      <$> seq 0 (Z.to_nat n) in
  exists w2,
    (dispatch 1 >> dispatch 1) w = Ret tt w2
    /\ holds_buffer w2 second
    /\ flip_results w2 = Some (S (length (heap w)))
    /\ heap w2 !! length (heap w) = Some Freed
    /\ (forall a, flip_results w = Some a -> heap w2 !! a = Some Freed)
    /\ statistics w2
       = Ret tt (set_stdout (stdout w2 ++ report n (analyze second)) w2).
Proof.
  intros Hn Hin Hok M1 M2 second.
  set (w1 := count_read 0 (Num n t2 :: rest) w).
  set (wA := announced n (generated n w1)).
  assert (H1 : dispatch 1 w = Ret tt wA).
  { rewrite (dispatch_generate w n w1).
    - change (malloc_fails w1 (malloc_calls w1)) with (malloc_fails w (malloc_calls w)).
      by rewrite M1.
    - apply (get_valid_input_reads _ _ _ [] n t1 (Num n t2 :: rest));
        [done..|by apply count_fits].
    - apply (session_ok_pointer_ok w Hok). }
  set (w1' := count_read 0 rest wA).
  set (wB := announced n (generated n w1')).
  assert (H2 : dispatch 1 wA = Ret tt wB).
  { rewrite (dispatch_generate wA n w1').
    - change (malloc_fails w1' (malloc_calls w1'))
        with (malloc_fails w (S (malloc_calls w))).
      by rewrite M2.
    - apply (get_valid_input_reads _ _ _ [] n t2 rest);
        [done..|by apply count_fits].
    - apply (session_ok_pointer_ok wA). by apply session_ok_announced. }
  assert (Hlen : length (heap wA) = S (length (heap w))).
  { change (heap wA) with (heap (generated n w1)).
    rewrite generated_heap, length_app, length_release. simpl. lia. }
  assert (HheapB : heap wB
            = <[length (heap w) := Freed]> (heap wA)
              ++ [Live (Some <$> fresh_flips w1' (Z.to_nat n))]).
  { change (heap wB) with (heap (generated n w1')). by rewrite generated_heap. }
  assert (HheapA : heap wA
            = release w ++ [Live (Some <$> fresh_flips w (Z.to_nat n))]).
  { change (heap wA) with (heap (generated n w1)). by rewrite generated_heap. }
  assert (Hsecond : fresh_flips w1' (Z.to_nat n) = second) by reflexivity.
  assert (HbB : holds_buffer wB second).
  { rewrite <- Hsecond. apply holds_buffer_announced. unfold MIN_FLIPS in Hn. lia. }
  exists wB. split.
  { unfold bind. by rewrite H1. }
  split; [exact HbB|]. split.
  { change (flip_results wB) with (Some (length (heap wA))). by rewrite Hlen. }
  split.
  { rewrite HheapB, lookup_app_l by (rewrite length_insert; lia).
    apply list_lookup_insert_eq. lia. }
  split.
  { intros a Ha. pose proof (released_block w a (session_ok_pointer_ok w Hok) Ha) as Hrel.
    assert (a < length (heap w))%nat
      by (rewrite <- (length_release w); by eapply lookup_lt_Some).
    rewrite HheapB, lookup_app_l by (rewrite length_insert; lia).
    rewrite list_lookup_insert_ne by lia.
    rewrite HheapA, lookup_app_l by (rewrite length_release; lia). done. }
  change n with (num_flips wB) at 1.
  apply statistics_spec; [exact HbB|].
  eapply holds_buffer_nonempty; [exact HbB|]. change (num_flips wB) with n. lia.
Qed.

Lemma regeneration_replaces_buffer_witness :
  let w := initial_world [Num 6 Blank; Num 6 Blank] sample_rand (fun _ => false) in
  exists w2,
    (dispatch 1 >> dispatch 1) w = Ret tt w2
    /\ holds_buffer w2 [1; 0; 1; 0; 1; 1]
    /\ heap w2 !! 0%nat = Some Freed
    /\ statistics w2
       = Ret tt (set_stdout
                   (stdout w2 ++ report 6 (analyze [1; 0; 1; 0; 1; 1])) w2).
Proof.
  intros w.
  assert (Hn : MIN_FLIPS <= 6 <= MAX_FLIPS) by (split; discriminate).
  assert (Hok : session_ok w) by (left; split; reflexivity).
  destruct (regeneration_replaces_buffer w 6 Blank Blank [] Hn eq_refl Hok
              eq_refl eq_refl) as (w2 & H1 & H2 & _ & H4 & _ & H6).
  exists w2. split; [exact H1|]. split; [exact H2|]. split; [exact H4|exact H6].
Defined.

(** * Input validation *)

Lemma rejected_iff min max z tl :
  fits_int z ->
  rejected min max (Num z tl) <-> ~ (min <= z <= max).
Proof.
  intros Hfit. split.
  - intros [H|(z' & tl' & H & Hz)]; [discriminate|]. injection H as -> ->.
    rewrite int_of_decimal_fits in Hz by done. lia.
  - intros H. right. exists z, tl. split; [done|].
    rewrite int_of_decimal_fits by done. lia.
Qed.







(** * The session state and the display *)

(** C9: every turn of the menu keeps the session invariant: when it holds
    before the turn (no buffer, [num_flips] 0 and [flip_results] NULL; or a
    buffer of [num_flips] outcomes with [num_flips] in [1, 100000]), the
    turn returns, or waits for input for ever, in a world where it holds
    again.  The one turn that ends the process, on a failed allocation,
    leaves [flip_results] NULL.  The invariant holds when the program
    starts. *)
Theorem session_invariant_kept (w : world) :
  session_ok w ->
  post (menu_turn w) (fun _ w' => session_ok w') fatal_exit session_ok
  /\ (forall input rs mf, session_ok (initial_world input rs mf))
  /\ (forall w0, session_ok w0 ->
        (flip_results w0 = None /\ num_flips w0 = 0)
        \/ (exists a cells,
              flip_results w0 = Some a
              /\ heap w0 !! a = Some (Live cells)
              /\ Z.of_nat (length cells) = num_flips w0
              /\ 1 <= num_flips w0 <= 100000)).
Proof.
  intros Hok. split; [by apply keeps_session_menu_turn|].
  split; [intros; by left|].
  intros w0 [H|(buf & (a & Hp & Hh & Hn) & _ & Hr)]; [by left|].
  right. exists a, (Some <$> buf). split; [done|]. split; [done|].
  split; [by rewrite length_fmap|done].
Qed.

Lemma session_invariant_kept_witness :
  let w := initial_world [Num 1 Blank; Num 3 Blank; Blank] sample_rand (fun _ => false) in
  session_ok w
  /\ post (menu_turn w) (fun _ w' => session_ok w') fatal_exit session_ok.
Proof.
  intros w.
  assert (Hok : session_ok w) by (left; split; reflexivity).
  split; [exact Hok|].
  exact (proj1 (session_invariant_kept w Hok)).
Defined.

(** C10: [flip_to_string] is total: "HEADS" for 0, "TAILS" for 1 and
    "UNKNOWN" for every other integer.  In a session that keeps the
    invariant, and so after every generation, [display_flips] returns and
    none of the lines it has printed carries "UNKNOWN". *)
Theorem display_never_unknown (w : world) :
  session_ok w ->
  flip_to_string 0 = "HEADS"%string
  /\ flip_to_string 1 = "TAILS"%string
  /\ (forall flip, flip <> 0 -> flip <> 1 -> flip_to_string flip = "UNKNOWN"%string)
  /\ (exists ls new,
        display_flips w = Ret tt (set_stdin ls (set_stdout (stdout w ++ new) w))
        /\ Forall (fun e => ~ mentions_unknown e) new)
  /\ (forall n w1, MIN_FLIPS <= n <= MAX_FLIPS ->
        session_ok (announced n (generated n w1))).
Proof.
  intros Hok. split; [done|]. split; [done|]. split.
  { intros flip H0 H1. unfold flip_to_string, HEADS, TAILS.
    destruct (Z.eqb_spec flip 0); [done|]. by destruct (Z.eqb_spec flip 1). }
  split; [by apply display_flips_session|].
  intros n w1 Hn. by apply session_ok_announced.
Qed.

Lemma display_never_unknown_witness :
  let w := world_with [0; 1; 1] in
  session_ok w
  /\ exists ls new,
       display_flips w = Ret tt (set_stdin ls (set_stdout (stdout w ++ new) w))
       /\ Forall (fun e => ~ mentions_unknown e) new.
Proof.
  intros w.
  assert (Hok : session_ok w).
  { right. exists [0; 1; 1]. split; [exists 0%nat; repeat split; reflexivity|].
    split; [|split; discriminate].
    apply List.Forall_cons; [left; reflexivity|].
    apply List.Forall_cons; [right; reflexivity|].
    apply List.Forall_cons; [right; reflexivity|]. apply List.Forall_nil. }
  split; [exact Hok|].
  exact (proj1 (proj2 (proj2 (proj2 (display_never_unknown w Hok))))).
Defined.

(** * The empty session *)

Lemma load_flip_frame i w :
  match load_flip i w with
  | Ret _ w' => w' = w
  | Undefined => True
  | _ => False
  end.
Proof.
  unfold load_flip. destruct (flip_results w) as [a|]; [|done].
  destruct (heap w !! a) as [[|cells]|]; try done.
  destruct (i <? 0); [done|].
  by destruct (cells !! Z.to_nat i) as [[v|]|].
Qed.

Lemma scan_loop_frame n : forall i c w,
  match for_loop n i (fun i c => let* x := load_flip i in ret (stats_step x c)) c w with
  | Ret _ w' => w' = w
  | Undefined => True
  | _ => False
  end.
Proof.
  induction n as [|n IH]; intros i c w; [done|].
  cbn [for_loop]. unfold bind at 1. unfold bind at 1.
  pose proof (load_flip_frame i w) as Hl.
  destruct (load_flip i w) as [x w'| | | |]; try done. subst w'.
  unfold ret. apply IH.
Qed.

Lemma report_divisor n c :
  n <> 0 -> Forall (fun e => ~ divides_by_zero e) (report n c).
Proof.
  intros Hn. unfold report.
  repeat (apply List.Forall_cons; [|]); try apply List.Forall_nil;
    simpl; intros [num H]; repeat (destruct H as [H|H]; try discriminate H);
    try done; injection H as _ H; done.
Qed.

(** C4: with [num_flips] at 0, [display_flips] prints "No flips have been
    generated yet." and returns, and [statistics] prints that line and
    "Please use option 1 to generate flips first." and returns; neither
    reads the array nor changes anything else.  In every world, what
    [statistics] prints holds no percentage with a zero divisor. *)
Theorem no_data_reported (w : world) :
  num_flips w = 0 ->
  display_flips w = Ret tt (set_stdout (stdout w ++ [Printf no_flips_yet []]) w)
  /\ statistics w
     = Ret tt (set_stdout
                 (stdout w ++ [Printf no_flips_yet []; Printf generate_first []]) w)
  /\ (forall w0,
        match statistics w0 with
        | Ret _ w' => printed (fun e => ~ divides_by_zero e) w0 w'
        | Undefined => True
        | _ => False
        end).
Proof.
  intros H0. split; [by apply display_flips_no_data|].
  split; [by apply statistics_no_data|].
  intros w0. unfold statistics. unfold bind at 1, get_num_flips.
  destruct (Z.eqb_spec (num_flips w0) 0) as [E|E].
  - unfold bind, printf. cbn [stdout set_stdout]. eexists. split.
    + by rewrite <- app_assoc.
    + repeat constructor; simpl; intros [num []].
  - unfold bind at 1, scan_flips.
    pose proof (scan_loop_frame (Z.to_nat (num_flips w0)) 0 counters_init w0) as Hs.
    destruct (for_loop _ _ _ _ _) as [c w'| | | |]; try done. subst w'.
    rewrite print_all_spec. eexists. split; [reflexivity|].
    by apply report_divisor.
Qed.

Lemma no_data_reported_witness :
  let w := initial_world [Blank] sample_rand (fun _ => false) in
  display_flips w = Ret tt (set_stdout [Printf no_flips_yet []] w)
  /\ statistics w
     = Ret tt (set_stdout [Printf no_flips_yet []; Printf generate_first []] w).
Proof.
  intros w.
  destruct (no_data_reported w eq_refl) as (H1 & H2 & _).
  split; [exact H1|exact H2].
Defined.

(** * The whole program: the bound on the menu loop is never reached *)

Lemma consumes_weaken {A} (m : M A) : consumes true m -> consumes false m.
Proof. intros H w. specialize (H w). destruct (m w); try done; lia. Qed.

Lemma consumes_bind {A B} (m : M A) (k : A -> M B) :
  consumes false m -> (forall a, consumes false (k a)) -> consumes false (bind m k).
Proof.
  intros Hm Hk w. unfold bind. specialize (Hm w).
  destruct (m w) as [a w1| | | |]; try done.
  specialize (Hk a w1). destruct (k a w1); try done; lia.
Qed.

Lemma consumes_bind_strict {A B} (m : M A) (k : A -> M B) :
  consumes true m -> (forall a, consumes false (k a)) -> consumes true (bind m k).
Proof.
  intros Hm Hk w. unfold bind. specialize (Hm w).
  destruct (m w) as [a w1| | | |]; try done.
  specialize (Hk a w1). destruct (k a w1); try done; lia.
Qed.

Lemma consumes_bind_then {A B} (m : M A) (k : A -> M B) :
  consumes false m -> (forall a, consumes true (k a)) -> consumes true (bind m k).
Proof.
  intros Hm Hk w. unfold bind. specialize (Hm w).
  destruct (m w) as [a w1| | | |]; try done.
  specialize (Hk a w1). destruct (k a w1); try done; lia.
Qed.

Lemma consumes_ret {A} (a : A) : consumes false (ret a).
Proof. intros w. simpl. lia. Qed.

Lemma consumes_printf fmt args : consumes false (printf fmt args).
Proof. intros w. simpl. lia. Qed.

Lemma consumes_system cmd : consumes false (system cmd).
Proof. intros w. simpl. lia. Qed.

Lemma consumes_clear_input_buffer : consumes false clear_input_buffer.
Proof. intros w. simpl. destruct (stdin w); simpl; lia. Qed.

Lemma consumes_load_flip i : consumes false (load_flip i).
Proof.
  intros w. pose proof (load_flip_frame i w) as H.
  destruct (load_flip i w); try done. subst. lia.
Qed.

Lemma consumes_store_flip i v : consumes false (store_flip i v).
Proof.
  intros w. unfold store_flip. destruct (flip_results w) as [a|]; [|done].
  destruct (heap w !! a) as [[|cells]|]; try done.
  destruct ((i <? 0) || (Z.of_nat (length cells) <=? i)); try done; simpl; lia.
Qed.

Lemma consumes_rand : consumes false rand.
Proof. intros w. simpl. lia. Qed.

Lemma consumes_free p : consumes false (free p).
Proof.
  intros w. unfold free. destruct p as [a|]; [|simpl; lia].
  destruct (heap w !! a) as [[|cells]|]; try done; simpl; lia.
Qed.

Lemma consumes_malloc bytes : consumes false (malloc bytes).
Proof.
  intros w. unfold malloc. destruct (malloc_fails w (malloc_calls w)); simpl; lia.
Qed.

Lemma consumes_for_loop {S : Type} (body : Z -> S -> M S) n :
  (forall i s, consumes false (body i s)) ->
  forall i s, consumes false (for_loop n i body s).
Proof.
  intros Hbody. induction n as [|n IH]; intros i s.
  - apply consumes_ret.
  - cbn [for_loop]. apply consumes_bind; [apply Hbody|]. intros s'. apply IH.
Qed.

Lemma consumes_print_all es : consumes false (print_all es).
Proof. intros w. rewrite print_all_spec. simpl. lia. Qed.

Lemma consumes_get_valid_input min max : consumes true (get_valid_input min max).
Proof.
  intros w. pose proof (get_valid_input_post min max w) as H.
  destruct (get_valid_input min max w); try done.
  by destruct H as (_ & k & ls & -> & Hlen).
Qed.

Lemma consumes_get_flip_results : consumes false get_flip_results.
Proof. intros w. simpl. lia. Qed.

Lemma consumes_get_num_flips : consumes false get_num_flips.
Proof. intros w. simpl. lia. Qed.

Lemma consumes_assign_flip_results p : consumes false (assign_flip_results p).
Proof. intros w. simpl. lia. Qed.

Lemma consumes_assign_num_flips n : consumes false (assign_num_flips n).
Proof. intros w. simpl. lia. Qed.

Lemma consumes_fprintf_stderr fmt args : consumes false (fprintf_stderr fmt args).
Proof. intros w. simpl. lia. Qed.

Lemma consumes_exit {A} s : consumes false (@exit A s).
Proof. intros w. done. Qed.

Create HintDb input_db.
#[local] Hint Resolve consumes_ret consumes_printf consumes_system
  consumes_clear_input_buffer consumes_load_flip consumes_store_flip
  consumes_rand consumes_free consumes_malloc consumes_print_all
  consumes_get_flip_results consumes_get_num_flips consumes_assign_flip_results
  consumes_assign_num_flips consumes_fprintf_stderr consumes_exit : input_db.

(** Walks down a program built from [bind], [for_loop] and case analyses. *)
Ltac consumes_steps :=
  repeat first
    [ apply consumes_bind; [|intros ?]
    | apply consumes_for_loop; intros ? ?
    | solve [auto with input_db]
    | solve [apply consumes_weaken, consumes_get_valid_input]
    | match goal with
      | |- consumes _ (match ?x with _ => _ end) => destruct x
      end ].

Lemma consumes_pause : consumes false pause.
Proof. unfold pause. consumes_steps. Qed.

Lemma consumes_display_menu : consumes false display_menu.
Proof. unfold display_menu. consumes_steps. Qed.

Lemma consumes_generate_flips : consumes false generate_flips.
Proof. unfold generate_flips. consumes_steps. Qed.

Lemma consumes_display_flips : consumes false display_flips.
Proof. unfold display_flips. consumes_steps; apply consumes_pause. Qed.

Lemma consumes_statistics : consumes false statistics.
Proof. unfold statistics, scan_flips. consumes_steps. Qed.

Lemma consumes_dispatch choice : consumes false (dispatch choice).
Proof.
  unfold dispatch. consumes_steps;
    first [apply consumes_generate_flips | apply consumes_display_flips
          | apply consumes_statistics].
Qed.

(** A turn of the menu that returns has read the line of its choice. *)
Lemma consumes_menu_turn : consumes true menu_turn.
Proof.
  unfold menu_turn.
  apply consumes_bind_then; [apply consumes_display_menu|intros _].
  apply consumes_bind_then; [apply consumes_printf|intros _].
  apply consumes_bind_strict; [apply consumes_get_valid_input|intros choice].
  apply consumes_bind; [apply consumes_printf|intros _].
  apply consumes_bind; [apply consumes_dispatch|intros _].
  apply consumes_bind; [|intros _; apply consumes_ret].
  destruct (negb (choice =? 0)); [|apply consumes_ret].
  apply consumes_bind; [apply consumes_pause|intros _]. apply consumes_system.
Qed.

Lemma main_loop_post fuel : forall w,
  session_ok w ->
  (length (stdin w) < fuel)%nat ->
  post (main_loop fuel w) (fun _ w' => session_ok w') fatal_exit session_ok.
Proof.
  induction fuel as [|fuel IH]; intros w Hok Hfuel; [lia|].
  cbn [main_loop]. unfold bind.
  pose proof (keeps_session_menu_turn w Hok) as Hk.
  pose proof (consumes_menu_turn w) as Hc.
  destruct (menu_turn w) as [choice w'| | | |]; simpl in *; try done.
  destruct (negb (choice =? 0)); [|exact Hk].
  apply IH; [exact Hk|lia].
Qed.

(** From its start, on every input, random sequence and allocator, the
    program either returns 0, or exits with [EXIT_FAILURE] on a failed
    allocation, or waits for ever for a valid line at the end of the input;
    it never uses a bad pointer or index and the bound of its loop is not
    reached. *)
Lemma main_total input rs mf :
  post (main (initial_world input rs mf)) (fun r _ => r = 0) fatal_exit session_ok.
Proof.
  unfold main. unfold bind at 1. unfold srand_time.
  unfold bind at 1. unfold clear_screen, system.
  eapply post_bind.
  - apply main_loop_post; [by left|]. simpl. lia.
  - intros [] w' Hok. cbn beta. unfold bind at 1, get_flip_results.
    pose proof (session_ok_pointer_ok w' Hok) as Hptr. unfold pointer_ok in Hptr.
    destruct (flip_results w') as [a|] eqn:E; [|done].
    destruct Hptr as [cells Hc]. unfold bind, free. by rewrite Hc.
Qed.

(** * More on [get_valid_input] *)

Lemma bind_same_start {A B} (m : M A) (k : A -> M B) w w2 :
  m w = m w2 -> bind m k w = bind m k w2.
Proof. intros H. unfold bind. by rewrite H. Qed.

Lemma scanf_d_blank w rest :
  stdin w = Blank :: rest -> scanf_d w = scanf_d (set_stdin rest w).
Proof.
  intros Hin. unfold scanf_d. rewrite Hin. cbn [scan_int stdin set_stdin].
  by destruct (scan_int rest) as [[r v] ls].
Qed.

Lemma get_valid_input_loop_blank min max fuel w rest :
  stdin w = Blank :: rest ->
  get_valid_input_loop fuel min max w
  = get_valid_input_loop fuel min max (set_stdin rest w).
Proof.
  intros Hin. destruct fuel as [|fuel]; [done|].
  cbn [get_valid_input_loop]. by apply bind_same_start, scanf_d_blank.
Qed.

Lemma get_valid_input_loop_step min max fuel w l more :
  stdin w = l :: more ->
  rejected min max l ->
  get_valid_input_loop (S fuel) min max w
  = get_valid_input_loop fuel min max (after_rejections min max 1 more w).
Proof.
  intros Hin Hrej. cbn [get_valid_input_loop]. unfold bind at 1, scanf_d.
  rewrite Hin.
  destruct Hrej as [->|(z' & tl' & -> & Hz')]; cbn [scan_int Z.eqb Pos.eqb].
  - reflexivity.
  - assert ((int_of_decimal z' <? min) || (int_of_decimal z' >? max) = true) as ->.
    { destruct (Z.ltb_spec (int_of_decimal z') min),
               (Z.gtb_spec (int_of_decimal z') max); simpl; lia || done. }
    reflexivity.
Qed.

Lemma non_blank_rejected min max l ls :
  rejected min max l -> non_blank (l :: ls) = S (non_blank ls).
Proof.
  unfold non_blank. cbn [List.filter].
  intros [->|(z' & tl' & -> & _)]; reflexivity.
Qed.

Lemma get_valid_input_loop_reads min max skipped z tl rest :
  min <= int_of_decimal z <= max ->
  Forall (passed_over min max) skipped ->
  forall fuel w,
    stdin w = skipped ++ Num z tl :: rest ->
    (non_blank skipped < fuel)%nat ->
    get_valid_input_loop fuel min max w
    = Ret (int_of_decimal z) (after_rejections min max (non_blank skipped) rest w).
Proof.
  intros Hz. induction 1 as [|l skipped Hl Hsk IH]; intros fuel w Hin Hfuel.
  - destruct fuel as [|fuel]; [unfold non_blank in Hfuel; simpl in Hfuel; lia|].
    cbn [get_valid_input_loop]. unfold bind at 1, scanf_d.
    cbn [app] in Hin. rewrite Hin. cbn [scan_int Z.eqb Pos.eqb].
    destruct (Z.ltb_spec (int_of_decimal z) min); [lia|].
    destruct (Z.gtb_spec (int_of_decimal z) max); [lia|].
    cbn [orb]. unfold bind, clear_input_buffer, ret. cbn [stdin set_stdin tail].
    unfold after_rejections, non_blank. cbn [List.filter length replicate].
    by rewrite app_nil_r, set_stdout_same.
  - cbn [app] in Hin. destruct Hl as [->|Hrej].
    + rewrite (get_valid_input_loop_blank min max fuel w _ Hin).
      rewrite (IH fuel (set_stdin (skipped ++ Num z tl :: rest) w)); [done|done|].
      exact Hfuel.
    + rewrite (non_blank_rejected min max l skipped Hrej) in *.
      destruct fuel as [|fuel]; [lia|].
      rewrite (get_valid_input_loop_step min max fuel w l _ Hin Hrej).
      rewrite IH; [|done|lia].
      by rewrite after_rejections_compose.
Qed.

Lemma get_valid_input_loop_never min max skipped :
  Forall (passed_over min max) skipped ->
  forall fuel w,
    stdin w = skipped ->
    (non_blank skipped < fuel)%nat ->
    get_valid_input_loop fuel min max w
    = Spin (after_rejections min max (S (non_blank skipped)) [] w).
Proof.
  induction 1 as [|l skipped Hl Hsk IH]; intros fuel w Hin Hfuel.
  - destruct fuel as [|fuel]; [unfold non_blank in Hfuel; simpl in Hfuel; lia|].
    cbn [get_valid_input_loop]. unfold bind at 1, scanf_d. rewrite Hin.
    reflexivity.
  - destruct Hl as [->|Hrej].
    + rewrite (get_valid_input_loop_blank min max fuel w _ Hin).
      rewrite (IH fuel (set_stdin skipped w)); [done|done|]. exact Hfuel.
    + rewrite (non_blank_rejected min max l skipped Hrej) in *.
      destruct fuel as [|fuel]; [lia|].
      rewrite (get_valid_input_loop_step min max fuel w l _ Hin Hrej).
      rewrite IH; [|done|lia].
      by rewrite after_rejections_compose.
Qed.

Lemma non_blank_le ls : (non_blank ls <= length ls)%nat.
Proof. unfold non_blank. apply List.filter_length_le. Qed.

(** The reader on lines it passes over, followed by one it accepts. *)
Lemma get_valid_input_passes min max w skipped z tl rest :
  min <= int_of_decimal z <= max ->
  Forall (passed_over min max) skipped ->
  stdin w = skipped ++ Num z tl :: rest ->
  get_valid_input min max w
  = Ret (int_of_decimal z)
        (after_rejections min max (non_blank skipped) rest w).
Proof.
  intros Hz Hsk Hin. unfold get_valid_input.
  rewrite (get_valid_input_loop_reads min max skipped z tl rest Hz Hsk); [done|done|].
  rewrite Hin, length_app. pose proof (non_blank_le skipped). simpl. lia.
Qed.

(** The reader on an input it passes over to the end. *)
Lemma get_valid_input_exhausts min max w :
  Forall (passed_over min max) (stdin w) ->
  get_valid_input min max w
  = Spin (after_rejections min max (S (non_blank (stdin w))) [] w).
Proof.
  intros Hsk. unfold get_valid_input.
  rewrite (get_valid_input_loop_never min max (stdin w) Hsk); [done|done|].
  pose proof (non_blank_le (stdin w)). lia.
Qed.

Lemma passed_over_iff min max z tl :
  fits_int z ->
  passed_over min max (Num z tl) <-> ~ (min <= z <= max).
Proof.
  intros Hfit. unfold passed_over. rewrite (rejected_iff min max z tl Hfit).
  split; [intros [H|H]; [discriminate|done]|by right].
Qed.

(** An input whose numbers fit an [int] is passed over to its end, or up
    to a first line headed by a number of the range. *)
Lemma input_fits_split min max ls :
  input_fits ls ->
  Forall (passed_over min max) ls
  \/ exists skipped z tl rest,
       ls = skipped ++ Num z tl :: rest
       /\ Forall (passed_over min max) skipped
       /\ fits_int z /\ min <= z <= max.
Proof.
  induction 1 as [|l ls Hl Hls IH]; [by left|].
  assert (Hnext : passed_over min max l ->
    Forall (passed_over min max) (l :: ls)
    \/ exists skipped z tl rest,
         l :: ls = skipped ++ Num z tl :: rest
         /\ Forall (passed_over min max) skipped
         /\ fits_int z /\ min <= z <= max).
  { intros Hp. destruct IH as [IH|(skipped & z & tl & rest & -> & Hsk & Hz)].
    - left. by apply List.Forall_cons.
    - right. exists (l :: skipped), z, tl, rest. split; [done|].
      split; [by apply List.Forall_cons|done]. }
  destruct l as [| |z tl].
  - apply Hnext. by left.
  - apply Hnext. right. by left.
  - destruct (decide (min <= z <= max)) as [Hz|Hz].
    + right. exists [], z, tl, ls. split; [done|]. split; [apply List.Forall_nil|done].
    + apply Hnext. by apply passed_over_iff.
Qed.

(** X1: [get_valid_input] returns the value of the first line headed by
    an integer whose value in the [int] lies in [min, max], and drops that
    line; for an integer that an [int] can hold this value is the integer
    itself.  Of the lines before it, the blank ones are skipped without a
    prompt and each of the others, which hold no integer at their head or
    one whose value in the [int] is outside the range, costs exactly one
    range prompt.  Nothing else changes. *)
Theorem blank_lines_cost_no_prompt (min max : Z) (w : world)
    (skipped : list line) (z : Z) (tl : line) (rest : list line) :
  min <= int_of_decimal z <= max ->
  Forall (passed_over min max) skipped ->
  stdin w = skipped ++ Num z tl :: rest ->
  get_valid_input min max w
  = Ret (int_of_decimal z)
        (set_stdin rest
           (set_stdout
              (stdout w ++ replicate (non_blank skipped) (range_message min max))
              w))
  /\ (fits_int z -> int_of_decimal z = z)
  /\ (forall z' tl', fits_int z' ->
        (passed_over min max (Num z' tl') <-> ~ (min <= z' <= max))).
Proof.
  intros Hz Hsk Hin. split; [by apply get_valid_input_passes with (tl := tl)|].
  split; [apply int_of_decimal_fits|]. intros z' tl'. apply passed_over_iff.
Qed.

Lemma blank_lines_cost_no_prompt_witness :
  let w := initial_world [Blank; Num 9 Blank; Blank; Blank; Junk; Num 2 Junk; Num 5 Blank]
             sample_rand (fun _ => false) in
  get_valid_input 0 3 w
  = Ret 2 (set_stdin [Num 5 Blank]
             (set_stdout [range_message 0 3; range_message 0 3] w)).
Proof.
  intros w.
  assert (Hz : 0 <= int_of_decimal 2 <= 3) by (split; discriminate).
  assert (Hsk : Forall (passed_over 0 3) [Blank; Num 9 Blank; Blank; Blank; Junk]).
  { apply List.Forall_cons; [left; reflexivity|].
    apply List.Forall_cons.
    { right. right. exists 9, Blank. split; [reflexivity|]. right. reflexivity. }
    apply List.Forall_cons; [left; reflexivity|].
    apply List.Forall_cons; [left; reflexivity|].
    apply List.Forall_cons; [right; left; reflexivity|]. apply List.Forall_nil. }
  exact (proj1 (blank_lines_cost_no_prompt 0 3 w
                  [Blank; Num 9 Blank; Blank; Blank; Junk]
                  2 Junk [Num 5 Blank] Hz Hsk eq_refl)).
Defined.

(** X2: on an input whose numbers all fit an [int], so that every [%d]
    conversion is one ISO C defines, the result of [get_valid_input] is read
    off the input, whatever the bounds.  If a line is headed by an integer
    of [min, max], it
    returns the first such integer and drops its line, having printed one
    range prompt for each line before it that is not blank; otherwise it
    prints one range prompt per line that is not blank, and one more at the
    end of the input, and prompts for ever.  Only the standard streams
    change; with [max < min] it never returns. *)
Theorem get_valid_input_contract (min max : Z) (w : world) :
  input_fits (stdin w) ->
  ((exists skipped z tl rest,
      stdin w = skipped ++ Num z tl :: rest
      /\ Forall (passed_over min max) skipped
      /\ min <= z <= max
      /\ get_valid_input min max w
         = Ret z (set_stdin rest
                    (set_stdout
                       (stdout w
                        ++ replicate (non_blank skipped) (range_message min max))
                       w)))
   \/ (Forall (passed_over min max) (stdin w)
       /\ get_valid_input min max w
          = Spin (set_stdin []
                    (set_stdout
                       (stdout w
                        ++ replicate (S (non_blank (stdin w)))
                             (range_message min max))
                       w))))
  /\ (max < min -> exists w', get_valid_input min max w = Spin w').
Proof.
  intros Hfit.
  destruct (input_fits_split min max (stdin w) Hfit)
    as [Hsk|(skipped & z & tl & rest & Hin & Hsk & Hz & Hr)].
  - split.
    + right. split; [done|]. by apply get_valid_input_exhausts.
    + intros _. eexists. by apply get_valid_input_exhausts.
  - split; [|lia].
    left. exists skipped, z, tl, rest. split; [done|]. split; [done|].
    split; [done|].
    rewrite (get_valid_input_passes min max w skipped z tl rest);
      rewrite ?int_of_decimal_fits; done.
Qed.

Lemma get_valid_input_contract_witness :
  let w := initial_world [Blank; Num 100001 Blank; Junk; Num 12 Blank; Num 4 Blank]
             sample_rand (fun _ => false) in
  input_fits (stdin w)
  /\ ((exists skipped z tl rest,
         stdin w = skipped ++ Num z tl :: rest
         /\ Forall (passed_over MIN_FLIPS MAX_FLIPS) skipped
         /\ MIN_FLIPS <= z <= MAX_FLIPS
         /\ get_valid_input MIN_FLIPS MAX_FLIPS w
            = Ret z (set_stdin rest
                       (set_stdout
                          (stdout w
                           ++ replicate (non_blank skipped)
                                (range_message MIN_FLIPS MAX_FLIPS))
                          w)))
      \/ (Forall (passed_over MIN_FLIPS MAX_FLIPS) (stdin w)
          /\ get_valid_input MIN_FLIPS MAX_FLIPS w
             = Spin (set_stdin []
                       (set_stdout
                          (stdout w
                           ++ replicate (S (non_blank (stdin w)))
                                (range_message MIN_FLIPS MAX_FLIPS))
                          w))))
  /\ get_valid_input MIN_FLIPS MAX_FLIPS w
     = Ret 12 (set_stdin [Num 4 Blank]
                 (set_stdout (replicate 2 (range_message MIN_FLIPS MAX_FLIPS)) w)).
Proof.
  intros w.
  assert (Hfit : input_fits (stdin w)).
  { unfold input_fits, fits_int.
    apply List.Forall_cons; [exact I|].
    apply List.Forall_cons; [split; discriminate|].
    apply List.Forall_cons; [exact I|].
    apply List.Forall_cons; [split; discriminate|].
    apply List.Forall_cons; [split; discriminate|]. apply List.Forall_nil. }
  split; [exact Hfit|].
  split; [exact (proj1 (get_valid_input_contract MIN_FLIPS MAX_FLIPS w Hfit))|].
  reflexivity.
Defined.

(** * More on [display_flips] *)

Lemma display_events_snoc n buf x : forall i,
  display_events n i (buf ++ [x])
  = display_events n i buf
    ++ flip_row (i + Z.of_nat (length buf)) x
       :: (if pause_after n (i + Z.of_nat (length buf)) then [pause_prompt] else []).
Proof.
  induction buf as [|y buf IH]; intros i.
  - cbn [app display_events length]. rewrite Z.add_0_r. by rewrite app_nil_r.
  - cbn [app display_events length]. rewrite IH.
    replace (i + 1 + Z.of_nat (length buf)) with (i + Z.of_nat (S (length buf))) by lia.
    by rewrite <- app_assoc.
Qed.

Lemma pauses_in_S n k : forall i,
  pauses_in n i (S k)
  = (pauses_in n i k + (if pause_after n (i + Z.of_nat k) then 1 else 0))%nat.
Proof.
  induction k as [|k IH]; intros i.
  - cbn [pauses_in]. rewrite Z.add_0_r. lia.
  - cbn [pauses_in] in *. rewrite IH.
    replace (i + 1 + Z.of_nat k) with (i + Z.of_nat (S k)) by lia. lia.
Qed.

Lemma tail_drop_S {A} (l : list A) k : tail (drop k l) = drop (S k) l.
Proof.
  revert l. induction k as [|k IH]; intros [|x l]; try done.
  cbn [drop]. apply IH.
Qed.

(** Before the last line a pause follows every twentieth line. *)
Lemma pauses_in_early n k :
  Z.of_nat k <= n - 1 -> Z.of_nat (pauses_in n 0 k) = Z.of_nat k / 20.
Proof.
  induction k as [|k IH]; intros Hk; [done|].
  rewrite pauses_in_S, Nat2Z.inj_add, IH by lia.
  unfold pause_after, PAUSE_INTERVAL. rewrite Z.add_0_l.
  rewrite Z.rem_mod_nonneg by lia.
  destruct (Z.ltb_spec (Z.of_nat k) (n - 1)); [|lia].
  rewrite andb_true_r.
  destruct (Z.eqb_spec ((Z.of_nat k + 1) mod 20) 0) as [E|E];
    cbn [Z.of_nat]; Z.to_euclidean_division_equations; lia.
Qed.

Lemma pauses_in_all n :
  (0 < n)%nat ->
  Z.of_nat (pauses_in (Z.of_nat n) 0 n) = (Z.of_nat n - 1) / 20.
Proof.
  intros Hn. destruct n as [|k]; [lia|].
  rewrite pauses_in_S, Nat2Z.inj_add, pauses_in_early by lia.
  unfold pause_after. rewrite Z.add_0_l.
  destruct (Z.ltb_spec (Z.of_nat k) (Z.of_nat (S k) - 1)); [lia|].
  rewrite andb_false_r. replace (Z.of_nat (S k) - 1) with (Z.of_nat k) by lia.
  cbn [Z.of_nat]. lia.
Qed.

Lemma display_events_rows n buf : forall i,
  List.filter is_flip_row (display_events n i buf)
  = imap (fun j x => flip_row (i + Z.of_nat j) x) buf.
Proof.
  induction buf as [|x buf IH]; intros i; [done|].
  cbn [display_events imap]. cbn [List.filter is_flip_row flip_row].
  rewrite Z.add_0_r. f_equal.
  rewrite List.filter_app, IH.
  assert (List.filter is_flip_row (if pause_after n i then [pause_prompt] else []) = [])
    as -> by (by destruct (pause_after n i)).
  cbn [app]. apply imap_ext. intros j y _. unfold compose.
  f_equal. lia.
Qed.

(** On a non-empty buffer [display_flips] returns, having printed the
    lines of [display_events] and the footer and consumed one line of input
    per pause. *)
Lemma display_flips_spec (w : world) (buf : list Z) :
  holds_buffer w buf ->
  buf <> [] ->
  let n := num_flips w in
  display_flips w
  = Ret tt (set_stdin (drop (Z.to_nat ((n - 1) / 20)) (stdin w))
              (set_stdout (stdout w ++ display_events n 0 buf ++ display_footer n) w)).
Proof.
  intros Hb Hne n. pose proof Hb as (a & Hp & Hh & Hn).
  assert (Hlen : (0 < length buf)%nat) by (destruct buf; [done|simpl; lia]).
  unfold display_flips. unfold bind at 1, get_num_flips. fold n.
  destruct (Z.eqb_spec n 0) as [E|_]; [subst n; lia|].
  destruct (for_loop_inv
    (fun (j : nat) (_ : unit) w' =>
       w' = set_stdin (drop (pauses_in n 0 j) (stdin w))
              (set_stdout (stdout w ++ display_events n 0 (take j buf)) w))
    (fun i (_ : unit) =>
       let* x := load_flip i in
       printf "%6d  |   %d   | %s\n" [AInt (i + 1); AInt x; AStr (flip_to_string x)] >>
       if (Z.rem (i + 1) PAUSE_INTERVAL =? 0) && (i <? n - 1)
       then pause else ret tt)
    (length buf) 0%nat tt w) as ([] & w' & Hl & ->).
  - cbn [pauses_in take display_events drop]. rewrite app_nil_r. by destruct w.
  - intros j [] w' Hj ->.
    destruct (lookup_lt_is_Some_2 buf j) as [x Hx]; [lia|].
    rewrite (bind_Ret _ _ _ _ _
               (load_flip_ok
                  (set_stdin (drop (pauses_in n 0 j) (stdin w))
                     (set_stdout (stdout w ++ display_events n 0 (take j buf)) w))
                  a buf j x Hp Hh Hx)).
    exists tt. eexists. split; [|reflexivity].
    rewrite (take_S_r _ _ _ Hx), display_events_snoc, pauses_in_S.
    rewrite length_take_le by lia. rewrite Z.add_0_l.
    unfold bind at 1, printf at 1. cbn [stdout set_stdout set_stdin].
    fold (pause_after n (Z.of_nat j)). fold (flip_row (Z.of_nat j) x).
    destruct (pause_after n (Z.of_nat j)).
    + unfold pause, bind, printf, clear_input_buffer.
      cbn [stdout stdin set_stdout set_stdin].
      rewrite Nat.add_1_r, tail_drop_S, <- !app_assoc. reflexivity.
    + unfold ret. rewrite Nat.add_0_r, <- !app_assoc. reflexivity.
  - change (Z.of_nat 0) with 0 in Hl. subst n. rewrite Hn, Nat2Z.id in *.
    rewrite (bind_Ret _ _ _ _ _ Hl).
    unfold bind, printf. cbn [stdout set_stdout set_stdin num_flips].
    rewrite Nat.add_0_l, firstn_all, <- !app_assoc.
    rewrite <- (pauses_in_all (length buf)) by done. by rewrite Nat2Z.id.
Qed.

(** X3: on a non-empty buffer [display_flips] prints one line per flip, in
    order, with the index counted from 1, the value and its label, then the
    two closing lines.  It pauses after every twentieth line but the last
    of all: [(n - 1) / 20] pauses for [n] flips, each of which consumes one
    line of input (none at the end of the input).  It changes nothing
    else. *)
Theorem display_pages_of_twenty (w : world) (buf : list Z) :
  holds_buffer w buf ->
  buf <> [] ->
  let n := num_flips w in
  display_flips w
  = Ret tt (set_stdin (drop (Z.to_nat ((n - 1) / 20)) (stdin w))
              (set_stdout (stdout w ++ display_events n 0 buf ++ display_footer n) w))
  /\ List.filter is_flip_row (display_events n 0 buf)
     = imap (fun j x => flip_row (Z.of_nat j) x) buf
  /\ Z.of_nat (length (List.filter (fun e => negb (is_flip_row e))
                         (display_events n 0 buf)))
     = (n - 1) / 20.
Proof.
  intros Hb Hne n. pose proof Hb as (a & Hp & Hh & Hn).
  assert (Hlen : (0 < length buf)%nat) by (destruct buf; [done|simpl; lia]).
  assert (Hpauses : forall k i,
    length (List.filter (fun e => negb (is_flip_row e)) (display_events n i k))
    = pauses_in n i (length k)).
  { induction k as [|x k IH]; intros i; [done|].
    cbn [display_events length pauses_in List.filter is_flip_row flip_row negb].
    rewrite List.filter_app, length_app, IH.
    by destruct (pause_after n i). }
  split; [|split].
  - by apply display_flips_spec.
  - rewrite display_events_rows. apply imap_ext. intros j x _. by rewrite Z.add_0_l.
  - rewrite Hpauses. subst n. rewrite Hn. by apply pauses_in_all.
Qed.

Lemma display_pages_of_twenty_witness :
  let buf := replicate 41 TAILS in
  let w := set_stdin [Junk; Num 3 Blank; Blank] (world_with buf) in
  display_flips w
  = Ret tt (set_stdin [Blank]
              (set_stdout (display_events 41 0 buf ++ display_footer 41) w))
  /\ Z.of_nat (length (List.filter (fun e => negb (is_flip_row e))
                         (display_events 41 0 buf))) = 2.
Proof.
  intros buf w.
  assert (Hb : holds_buffer w buf) by (exists 0%nat; repeat split; reflexivity).
  assert (Hne : buf <> []) by discriminate.
  destruct (display_pages_of_twenty w buf Hb Hne) as (H1 & _ & H3).
  split; [exact H1|exact H3].
Defined.

(** * More on [statistics] *)

Lemma streak_credit_nonneg s : 0 <= s -> 0 <= streak_credit s.
Proof. unfold streak_credit. destruct (Z.ltb_spec s 5); lia. Qed.

Lemma scan_inv_step x c :
  scan_inv c ->
  total_heads c + total_tails c < INT_MAX ->
  scan_inv (stats_step x c)
  /\ total_heads (stats_step x c) + total_tails (stats_step x c)
     = total_heads c + total_tails c + 1.
Proof.
  unfold scan_inv. intros (H1 & H2 & H3 & H4 & H5 & H6) B.
  assert (INT_MIN <= 0) by (unfold INT_MIN; lia).
  pose proof (streak_credit_nonneg (current_heads_streak c)).
  pose proof (streak_credit_nonneg (current_tails_streak c)).
  unfold stats_step, SEQUENCE_LENGTH.
  destruct (x =? HEADS);
    cbn [heads_sequences tails_sequences current_heads_streak current_tails_streak
         total_heads total_tails].
  - rewrite (incr_small (current_heads_streak c)), (incr_small (total_heads c)),
      (incr_small (heads_sequences c)) by lia.
    unfold streak_credit in *.
    destruct (Z.eqb_spec (current_heads_streak c + 1) 5),
             (Z.ltb_spec (current_heads_streak c) 5),
             (Z.ltb_spec (current_heads_streak c + 1) 5),
             (Z.ltb_spec (current_tails_streak c) 5); cbn; lia.
  - rewrite (incr_small (current_tails_streak c)), (incr_small (total_tails c)),
      (incr_small (tails_sequences c)) by lia.
    unfold streak_credit in *.
    destruct (Z.eqb_spec (current_tails_streak c + 1) 5),
             (Z.ltb_spec (current_tails_streak c) 5),
             (Z.ltb_spec (current_tails_streak c + 1) 5),
             (Z.ltb_spec (current_heads_streak c) 5); cbn; lia.
Qed.

Lemma scan_inv_scan l : forall c,
  scan_inv c ->
  total_heads c + total_tails c + Z.of_nat (length l) <= INT_MAX ->
  scan_inv (scan c l)
  /\ total_heads (scan c l) + total_tails (scan c l)
     = total_heads c + total_tails c + Z.of_nat (length l).
Proof.
  induction l as [|x l IH]; intros c Hc B.
  - split; [done|]. simpl. lia.
  - rewrite scan_cons. cbn [length] in B.
    destruct (scan_inv_step x c Hc) as [Hc' Hsum]; [lia|].
    destruct (IH (stats_step x c) Hc') as [Hc'' Hsum']; [lia|].
    split; [done|]. cbn [length]. lia.
Qed.

Lemma scan_inv_init : scan_inv counters_init.
Proof. unfold scan_inv, streak_credit. cbn. lia. Qed.

Lemma analyze_bounds buf :
  Z.of_nat (length buf) <= INT_MAX ->
  scan_inv (analyze buf)
  /\ total_heads (analyze buf) + total_tails (analyze buf) = Z.of_nat (length buf).
Proof.
  intros B.
  destruct (scan_inv_scan buf counters_init scan_inv_init) as [Hinv Hsum];
    [simpl; lia|].
  split; [exact Hinv|]. simpl in Hsum. exact Hsum.
Qed.

Lemma sum_of_sequences_fits buf :
  Z.of_nat (length buf) <= INT_MAX ->
  int_add (heads_sequences (analyze buf)) (tails_sequences (analyze buf))
  = heads_sequences (analyze buf) + tails_sequences (analyze buf).
Proof.
  intros B. destruct (analyze_bounds buf B) as [(H1 & H2 & H3 & H4 & H5 & H6) Hsum].
  pose proof (streak_credit_nonneg (current_heads_streak (analyze buf))).
  pose proof (streak_credit_nonneg (current_tails_streak (analyze buf))).
  unfold int_add. apply wrap_int_id. unfold INT_MIN, INT_MAX in *. lia.
Qed.

(** X4: a sequence costs five flips of its outcome.  In the counters the
    scan of [statistics] ends with, five times the sequences of heads does
    not exceed the total of heads, and likewise for tails; so the sequences
    found number at most a fifth of the flips, and their sum, printed last,
    does not overflow. *)
Theorem sequences_cost_five_flips (w : world) (buf : list Z) :
  holds_buffer w buf ->
  num_flips w <= INT_MAX ->
  let c := analyze buf in
  scan_flips (num_flips w) w = Ret c w
  /\ 0 <= heads_sequences c /\ 0 <= tails_sequences c
  /\ 5 * heads_sequences c <= total_heads c
  /\ 5 * tails_sequences c <= total_tails c
  /\ 5 * (heads_sequences c + tails_sequences c) <= num_flips w
  /\ int_add (heads_sequences c) (tails_sequences c)
     = heads_sequences c + tails_sequences c.
Proof.
  intros Hb Hn c. split; [by apply scan_flips_spec|].
  destruct Hb as (a & _ & _ & Hlen). rewrite Hlen in *.
  destruct (analyze_bounds buf Hn) as [(H1 & H2 & H3 & H4 & H5 & H6) Hsum].
  fold c in H1, H2, H3, H4, H5, H6, Hsum.
  pose proof (streak_credit_nonneg (current_heads_streak c)).
  pose proof (streak_credit_nonneg (current_tails_streak c)).
  repeat split; try lia.
  by apply sum_of_sequences_fits.
Qed.

Lemma sequences_cost_five_flips_witness :
  let buf := replicate 9 HEADS ++ replicate 6 TAILS ++ replicate 4 HEADS in
  let c := analyze buf in
  scan_flips 19 (world_with buf) = Ret c (world_with buf)
  /\ 5 * heads_sequences c <= total_heads c
  /\ 5 * tails_sequences c <= total_tails c
  /\ heads_sequences c = 1 /\ tails_sequences c = 1.
Proof.
  intros buf c.
  assert (Hb : holds_buffer (world_with buf) buf)
    by (exists 0%nat; repeat split; reflexivity).
  assert (Hn : num_flips (world_with buf) <= INT_MAX) by (vm_compute; discriminate).
  destruct (sequences_cost_five_flips (world_with buf) buf Hb Hn)
    as (H1 & _ & _ & H4 & H5 & _).
  split; [exact H1|]. split; [exact H4|]. split; [exact H5|].
  split; reflexivity.
Defined.

(** X5: on a non-empty buffer of outcomes [statistics] prints nine lines
    that can be read off the buffer: the number of heads and of tails, each
    with its percentage of the [n] flips, the number of maximal runs of at
    least five heads, of at least five tails, and the sum of the two.  The
    two totals add up to [n].  Nothing but the output changes: no input is
    read and the buffer is left as it was. *)
Theorem statistics_prints_report_of_buffer (w : world) (buf : list Z) :
  holds_buffer w buf ->
  buf <> [] ->
  Forall is_outcome buf ->
  num_flips w <= INT_MAX ->
  statistics w = Ret tt (set_stdout (stdout w ++ report_of buf) w)
  /\ Z.of_nat (count_heads buf) + Z.of_nat (count_tails buf) = num_flips w.
Proof.
  intros Hb Hne Hout Hn.
  rewrite (statistics_spec w buf Hb Hne).
  pose proof Hb as (a & _ & _ & Hlen). rewrite Hlen in *.
  pose proof (sum_of_sequences_fits buf Hn) as Hsum.
  destruct (scan_counts buf counters_init) as [Hh Ht]; [done|done|simpl; lia|].
  fold (analyze buf) in Hh, Ht. simpl in Hh, Ht.
  split.
  - unfold report, report_of, SEQUENCE_LENGTH.
    rewrite Hsum, Hh, Ht, analyze_heads_sequences, analyze_tails_sequences by done.
    reflexivity.
  - pose proof (count_heads_tails buf). lia.
Qed.

Lemma statistics_prints_report_of_buffer_witness :
  let buf := replicate 6 TAILS ++ [HEADS; TAILS] in
  statistics (world_with buf)
  = Ret tt (set_stdout (report_of buf) (world_with buf))
  /\ Z.of_nat (count_heads buf) + Z.of_nat (count_tails buf) = 8.
Proof.
  intros buf.
  assert (Hb : holds_buffer (world_with buf) buf)
    by (exists 0%nat; repeat split; reflexivity).
  assert (Hne : buf <> []) by discriminate.
  assert (Hout : Forall is_outcome buf).
  { repeat (apply List.Forall_cons; [first [left; reflexivity | right; reflexivity]|]).
    apply List.Forall_nil. }
  assert (Hn : num_flips (world_with buf) <= INT_MAX) by (vm_compute; discriminate).
  exact (statistics_prints_report_of_buffer (world_with buf) buf Hb Hne Hout Hn).
Defined.

(** * The turn of the menu *)

Lemma menu_turn_start w :
  menu_turn w
  = bind (get_valid_input 0 3)
      (fun choice =>
         printf "\n" [] >>
         dispatch choice >>
         (if negb (choice =? 0) then pause >> clear_screen else ret tt) >>
         ret choice)
      (set_stdout (stdout w ++ menu_events) w).
Proof.
  unfold menu_turn, display_menu. unfold bind at 1. unfold bind at 1.
  unfold bind at 1. unfold bind at 1. unfold bind at 1. unfold bind at 1.
  unfold printf at 1 2 3 4 5 6. unfold bind at 1. unfold printf at 1.
  cbn [stdout set_stdout]. rewrite <- !app_assoc. reflexivity.
Qed.

(** X6: a turn of the menu on an input that gives a choice: lines the
    reader passes over, then a line headed by an integer whose value in the
    [int] is 0, 1, 2 or 3.  The turn prints the menu and its prompt, one
    range prompt for each line passed over that is not blank, and a
    newline, and enters the [switch] with that value, the lines up to and
    including the accepted one consumed and the session untouched.  For 0 it
    then prints the farewell and returns 0: no pause, no screen clearing.
    For 1, 2, 3 it runs the operation and, when that returns, prints the
    pause prompt, discards one line of input, clears the screen and returns
    the choice; when the operation does not return, neither does the
    turn. *)
Theorem menu_turn_ending (w : world) (skipped : list line) (z : Z) (tl : line)
    (rest : list line) :
  Forall (passed_over 0 3) skipped ->
  stdin w = skipped ++ Num z tl :: rest ->
  0 <= int_of_decimal z <= 3 ->
  let choice := int_of_decimal z in
  let w3 := choice_read (non_blank skipped) rest w in
  stdout w3
  = stdout w ++ menu_events
    ++ replicate (non_blank skipped) (range_message 0 3) ++ [Printf "\n" []]
  /\ stdin w3 = rest
  /\ same_session w w3
  /\ (choice = 0 ->
        menu_turn w = Ret 0 (set_stdout (stdout w3 ++ [farewell]) w3))
  /\ (choice <> 0 ->
        menu_turn w
        = match dispatch choice w3 with
          | Ret _ wd =>
              Ret choice
                (set_stdin (tail (stdin wd))
                   (set_stdout (stdout wd ++ [pause_prompt; System "clear"]) wd))
          | Exit s w' => Exit s w'
          | Spin w' => Spin w'
          | Undefined => Undefined
          | OutOfFuel => OutOfFuel
          end).
Proof.
  intros Hsk Hin Hz choice w3.
  assert (Hturn :
    menu_turn w
    = bind (dispatch choice)
        (fun _ => (if negb (choice =? 0) then pause >> clear_screen else ret tt)
                  >> ret choice) w3).
  { rewrite menu_turn_start. unfold bind at 1.
    rewrite (get_valid_input_passes 0 3 (set_stdout (stdout w ++ menu_events) w)
               skipped z tl rest Hz Hsk Hin).
    reflexivity. }
  split.
  { unfold w3, choice_read, after_rejections. cbn [stdout set_stdout set_stdin].
    by rewrite <- !app_assoc. }
  split; [done|]. split; [by repeat split|]. split.
  - intros H0. rewrite Hturn, H0. reflexivity.
  - intros Hne. rewrite Hturn. unfold bind at 1.
    destruct (dispatch choice w3) as [[] wd| | | |]; try reflexivity.
    destruct (Z.eqb_spec choice 0) as [E|_]; [done|]. cbn [negb].
    unfold pause, clear_screen, bind, printf, clear_input_buffer, system, ret,
      pause_prompt.
    cbn [stdin stdout set_stdin set_stdout]. by rewrite <- app_assoc.
Qed.

Lemma menu_turn_ending_witness :
  let w := initial_world [Blank; Num 7 Blank; Junk; Num 3 Blank; Num 9 Blank]
             sample_rand (fun _ => false) in
  exists w',
    menu_turn w = Ret 3 w'
    /\ stdin w' = []
    /\ stdout w'
       = menu_events ++ replicate 2 (range_message 0 3)
         ++ [Printf "\n" []; Printf no_flips_yet []; Printf generate_first [];
             pause_prompt; System "clear"].
Proof.
  intros w.
  assert (Hsk : Forall (passed_over 0 3) [Blank; Num 7 Blank; Junk]).
  { apply List.Forall_cons; [left; reflexivity|].
    apply List.Forall_cons.
    { right. right. exists 7, Blank. split; [reflexivity|]. right. reflexivity. }
    apply List.Forall_cons; [right; left; reflexivity|]. apply List.Forall_nil. }
  assert (Hz : 0 <= int_of_decimal 3 <= 3) by (split; discriminate).
  destruct (menu_turn_ending w [Blank; Num 7 Blank; Junk] 3 Blank [Num 9 Blank]
              Hsk eq_refl Hz) as (_ & _ & _ & _ & H).
  eexists. split; [apply H; discriminate|]. split; reflexivity.
Defined.

(** * Ownership of the heap through the program *)

Lemma one_live_io w w' : io_only w w' -> one_live w -> one_live w'.
Proof. intros (ls & new & ->) H. exact H. Qed.

Lemma tidy_io w w' : io_only w w' -> tidy w -> tidy w'.
Proof.
  intros Hio [Hok Hl]. split; [by eapply session_ok_io|by eapply one_live_io].
Qed.

Lemma release_all_freed w : one_live w -> Forall (fun b => b = Freed) (release w).
Proof.
  intros Hl. apply Forall_lookup. intros i b Hb. unfold release in Hb.
  destruct b as [|cells]; [done|]. exfalso.
  destruct (flip_results w) as [p|] eqn:E.
  - destruct (decide (i = p)) as [->|Hne].
    + rewrite list_lookup_insert_eq in Hb by (by eapply lookup_lt_Some in Hb;
        rewrite length_insert in Hb).
      discriminate.
    + rewrite list_lookup_insert_ne in Hb by done.
      apply Hl in Hb. congruence.
  - apply Hl in Hb. congruence.
Qed.

Lemma one_live_announced n w :
  one_live w -> one_live (announced n (generated n w)).
Proof.
  intros Hl a cells Ha.
  change (heap (announced n (generated n w))) with (heap (generated n w)) in Ha.
  rewrite generated_heap in Ha.
  change (flip_results (announced n (generated n w))) with (Some (length (heap w))).
  destruct (decide (a < length (release w))%nat) as [Hlt|Hge].
  - rewrite lookup_app_l in Ha by done.
    pose proof (release_all_freed w Hl) as Hf.
    rewrite Forall_lookup in Hf. by apply Hf in Ha.
  - rewrite lookup_app_r in Ha by lia.
    destruct (a - length (release w))%nat as [|d] eqn:Ed; [|done].
    rewrite length_release in *. f_equal. lia.
Qed.

Lemma keeps_tidy_io {A} (m : M A) :
  (forall w, session_ok w -> exists a w', m w = Ret a w' /\ io_only w w') ->
  keeps_tidy m.
Proof.
  intros Hm w Ht. destruct (Hm w (proj1 Ht)) as (a & w' & -> & Hio). simpl.
  by apply (tidy_io w).
Qed.

Lemma keeps_tidy_bind {A B} (m : M A) (k : A -> M B) :
  keeps_tidy m -> (forall a, keeps_tidy (k a)) -> keeps_tidy (bind m k).
Proof.
  intros Hm Hk w Ht. eapply post_bind; [apply Hm, Ht|].
  intros a w' Ht'. by apply Hk.
Qed.

Lemma keeps_tidy_ret {A} (a : A) : keeps_tidy (ret a).
Proof. intros w Ht. exact Ht. Qed.

Lemma keeps_tidy_printf fmt args : keeps_tidy (printf fmt args).
Proof.
  apply keeps_tidy_io. intros w _. exists tt.
  destruct (printf_io fmt args w) as (w' & H & Hio). eauto.
Qed.

Lemma keeps_tidy_pause : keeps_tidy pause.
Proof.
  apply keeps_tidy_io. intros w _. exists tt.
  destruct (pause_io w) as (w' & H & Hio). eauto.
Qed.

Lemma keeps_tidy_clear_screen : keeps_tidy clear_screen.
Proof.
  apply keeps_tidy_io. intros w _. exists tt.
  destruct (system_io "clear" w) as (w' & H & Hio). eauto.
Qed.

Lemma keeps_tidy_display_menu : keeps_tidy display_menu.
Proof.
  apply keeps_tidy_io. intros w _. exists tt.
  destruct (display_menu_io w) as (w' & H & Hio). eauto.
Qed.

Lemma keeps_tidy_get_valid_input min max : keeps_tidy (get_valid_input min max).
Proof.
  intros w Ht. pose proof (get_valid_input_post min max w) as H.
  destruct (get_valid_input min max w) as [z w'| |w'| |]; simpl; try done.
  - destruct H as (_ & k & ls & -> & _).
    eapply tidy_io; [apply after_rejections_io|done].
  - destruct H as (k & ->).
    eapply tidy_io; [apply after_rejections_io|done].
Qed.

Lemma keeps_tidy_display_flips : keeps_tidy display_flips.
Proof.
  apply keeps_tidy_io. intros w Hok. exists tt.
  destruct (display_flips_session w Hok) as (ls & new & -> & _).
  eexists. split; [reflexivity|]. by exists ls, new.
Qed.

Lemma keeps_tidy_statistics : keeps_tidy statistics.
Proof.
  apply keeps_tidy_io. intros w Hok. exists tt.
  pose proof Hok as [[_ H0]|(buf & Hb & _ & Hn)].
  - rewrite statistics_no_data by done. eexists. split; [reflexivity|].
    eexists (stdin w), _. unfold set_stdin, set_stdout. by destruct w.
  - rewrite (statistics_spec w buf Hb) by (eapply holds_buffer_nonempty; [done|lia]).
    eexists. split; [reflexivity|].
    eexists (stdin w), _. unfold set_stdin, set_stdout. by destruct w.
Qed.

Lemma keeps_tidy_dispatch choice : keeps_tidy (dispatch choice).
Proof.
  unfold dispatch.
  destruct (choice =? 1) eqn:E1; [|destruct (choice =? 2); [|destruct (choice =? 3);
    [|destruct (choice =? 0)]]].
  - intros w [Hok Hl].
    pose proof (get_valid_input_post MIN_FLIPS MAX_FLIPS (gen_header w)) as Hpost.
    destruct (get_valid_input MIN_FLIPS MAX_FLIPS (gen_header w))
      as [n w1| |w1| |] eqn:Hread; try done.
    + destruct Hpost as (Hn & k & ls & Hw1 & _).
      assert (Hio : io_only w w1).
      { rewrite Hw1. eapply io_only_trans; [apply gen_header_io|apply after_rejections_io]. }
      pose proof (dispatch_generate w n w1 Hread
                    (pointer_ok_io _ _ Hio (session_ok_pointer_ok _ Hok))) as Hd.
      unfold dispatch in Hd. cbn [Z.eqb Pos.eqb] in Hd. rewrite Hd.
      pose proof (one_live_io _ _ Hio Hl) as Hl1.
      destruct (malloc_fails w1 (malloc_calls w1)); simpl.
      * split; [done|]. by apply release_all_freed.
      * split; [by apply session_ok_announced|by apply one_live_announced].
    + unfold bind at 1. rewrite (generate_flips_spin w w1 Hread). simpl.
      destruct Hpost as (k & ->).
      eapply tidy_io; [|by split].
      eapply io_only_trans; [apply gen_header_io|apply after_rejections_io].
  - apply keeps_tidy_display_flips.
  - apply keeps_tidy_statistics.
  - apply keeps_tidy_printf.
  - apply keeps_tidy_printf.
Qed.

Lemma keeps_tidy_menu_turn : keeps_tidy menu_turn.
Proof.
  unfold menu_turn.
  apply keeps_tidy_bind; [apply keeps_tidy_display_menu|intros _].
  apply keeps_tidy_bind; [apply keeps_tidy_printf|intros _].
  apply keeps_tidy_bind; [apply keeps_tidy_get_valid_input|intros choice].
  apply keeps_tidy_bind; [apply keeps_tidy_printf|intros _].
  apply keeps_tidy_bind; [apply keeps_tidy_dispatch|intros _].
  apply keeps_tidy_bind; [|intros _; apply keeps_tidy_ret].
  destruct (negb (choice =? 0)).
  - apply keeps_tidy_bind; [apply keeps_tidy_pause|intros _].
    apply keeps_tidy_clear_screen.
  - apply keeps_tidy_ret.
Qed.

Lemma main_loop_tidy fuel : forall w,
  tidy w ->
  (length (stdin w) < fuel)%nat ->
  post (main_loop fuel w) (fun _ w' => tidy w') clean_exit tidy.
Proof.
  induction fuel as [|fuel IH]; intros w Ht Hfuel; [lia|].
  cbn [main_loop]. unfold bind.
  pose proof (keeps_tidy_menu_turn w Ht) as Hk.
  pose proof (consumes_menu_turn w) as Hc.
  destruct (menu_turn w) as [choice w'| | | |]; simpl in *; try done.
  destruct (negb (choice =? 0)); [|exact Hk].
  apply IH; [exact Hk|lia].
Qed.

(** X7: the program is memory-safe and leaks nothing.  On every input
    whose numbers fit an [int], so that every [%d] conversion is defined,
    and for every random sequence and behaviour of the allocator, [main] has
    no undefined behaviour (no bad index, no read of an unwritten cell, no
    double free) and ends in one of three ways: it returns 0 with every
    block it allocated freed; it exits with [EXIT_FAILURE] on a failed
    allocation, again with every block freed; or it waits for ever for a
    line at the end of the input, the only live block being the buffer of
    the session. *)
Theorem main_safe_and_leak_free (input : list line) (rs : nat -> N)
    (mf : nat -> bool) :
  input_fits input ->
  post (main (initial_world input rs mf))
    (fun r w' => r = 0 /\ all_freed w')
    clean_exit
    (fun w' => session_ok w' /\ one_live w').
Proof.
  intros _.
  unfold main. unfold bind at 1. unfold srand_time.
  unfold bind at 1. unfold clear_screen, system.
  eapply post_bind.
  - apply main_loop_tidy; [|simpl; lia]. split; [by left|]. intros a cells Ha.
    cbn in Ha. by rewrite lookup_nil in Ha.
  - intros [] w' [Hok Hl]. cbn beta. unfold bind at 1, get_flip_results.
    pose proof (session_ok_pointer_ok w' Hok) as Hptr.
    pose proof (release_all_freed w' Hl) as Hrel.
    unfold pointer_ok in Hptr. unfold release in Hrel.
    destruct (flip_results w') as [a|] eqn:E.
    + destruct Hptr as [cells Hc]. unfold bind, free. rewrite Hc. simpl. done.
    + simpl. done.
Qed.

Lemma main_safe_and_leak_free_witness :
  let input := [Num 1 Blank; Num 3 Blank; Blank; Num 1 Blank; Num 2 Blank; Blank;
                Num 3 Blank; Blank; Num 0 Blank] in
  input_fits input
  /\ post (main (initial_world input sample_rand (fun _ => false)))
       (fun r w' => r = 0 /\ all_freed w')
       clean_exit
       (fun w' => session_ok w' /\ one_live w')
  /\ exists w', main (initial_world input sample_rand (fun _ => false)) = Ret 0 w'
                /\ heap w' = [Freed; Freed].
Proof.
  intros input.
  assert (Hfit : input_fits input).
  { unfold input_fits, fits_int.
    repeat (apply List.Forall_cons; [first [exact I | split; discriminate]|]).
    apply List.Forall_nil. }
  split; [exact Hfit|].
  split; [exact (main_safe_and_leak_free input sample_rand (fun _ => false) Hfit)|].
  eexists. split; [vm_compute; reflexivity|reflexivity].
Defined.

(** * The table and the totals *)

Lemma no_label_on_pause n i s :
  List.filter (has_label s) (if pause_after n i then [pause_prompt] else []) = [].
Proof. by destruct (pause_after n i). Qed.

Lemma labels_of_display_events n buf :
  Forall is_outcome buf ->
  forall i,
    length (List.filter (has_label "HEADS") (display_events n i buf)) = count_heads buf
    /\ length (List.filter (has_label "TAILS") (display_events n i buf)) = count_tails buf
    /\ List.filter (has_label "UNKNOWN") (display_events n i buf) = [].
Proof.
  unfold count_heads, count_tails.
  induction 1 as [|x buf Hx Hbuf IH]; intros i; [done|].
  cbn [display_events]. destruct (IH (i + 1)) as (IHh & IHt & IHu).
  destruct Hx as [-> | ->]; unfold flip_row, HEADS, TAILS;
    cbn [List.filter has_label flip_to_string Z.eqb Pos.eqb String.eqb Ascii.eqb
         Bool.eqb negb HEADS TAILS];
    rewrite !List.filter_app, !no_label_on_pause; cbn [app length];
    rewrite ?IHh, ?IHt, ?IHu; done.
Qed.

(** X8: the table and the statistics agree.  On a non-empty buffer of
    outcomes, the lines [display_flips] prints that carry the label "HEADS"
    are as many as the total of heads the scan of [statistics] ends with,
    those that carry "TAILS" as many as its total of tails, and none
    carries "UNKNOWN". *)
Theorem table_agrees_with_totals (w : world) (buf : list Z) :
  holds_buffer w buf ->
  buf <> [] ->
  Forall is_outcome buf ->
  num_flips w <= INT_MAX ->
  exists w1 table c,
    display_flips w = Ret tt w1
    /\ stdout w1 = stdout w ++ table
    /\ scan_flips (num_flips w) w = Ret c w
    /\ Z.of_nat (length (List.filter (has_label "HEADS") table)) = total_heads c
    /\ Z.of_nat (length (List.filter (has_label "TAILS") table)) = total_tails c
    /\ List.filter (has_label "UNKNOWN") table = [].
Proof.
  intros Hb Hne Hout Hn.
  eexists _, (display_events (num_flips w) 0 buf ++ display_footer (num_flips w)),
    (analyze buf).
  split; [by apply display_flips_spec|]. split; [done|].
  split; [by apply scan_flips_spec|].
  destruct (labels_of_display_events (num_flips w) buf Hout 0) as (Hh & Ht & Hu).
  pose proof Hb as (a & _ & _ & Hlen). rewrite Hlen in Hn.
  destruct (scan_counts buf counters_init) as [Sh St]; [done|done|simpl; lia|].
  fold (analyze buf) in Sh, St. simpl in Sh, St.
  rewrite !List.filter_app, !length_app, Hh, Ht, Hu, Sh, St.
  cbn [display_footer List.filter has_label length app]. split; [lia|].
  split; [lia|done].
Qed.

Lemma table_agrees_with_totals_witness :
  let buf := [1; 0; 0; 1; 0] in
  exists w1 table c,
    display_flips (world_with buf) = Ret tt w1
    /\ stdout w1 = table
    /\ scan_flips 5 (world_with buf) = Ret c (world_with buf)
    /\ Z.of_nat (length (List.filter (has_label "HEADS") table)) = total_heads c
    /\ total_heads c = 3.
Proof.
  intros buf.
  assert (Hb : holds_buffer (world_with buf) buf)
    by (exists 0%nat; repeat split; reflexivity).
  assert (Hne : buf <> []) by discriminate.
  assert (Hout : Forall is_outcome buf).
  { repeat (apply List.Forall_cons; [first [left; reflexivity | right; reflexivity]|]).
    apply List.Forall_nil. }
  assert (Hn : num_flips (world_with buf) <= INT_MAX) by (vm_compute; discriminate).
  destruct (table_agrees_with_totals (world_with buf) buf Hb Hne Hout Hn)
    as (w1 & table & c & H1 & H2 & H3 & H4 & _).
  exists w1, table, c. split; [exact H1|]. split; [exact H2|]. split; [exact H3|].
  split; [exact H4|].
  rewrite (scan_flips_spec (world_with buf) buf Hb) in H3.
  injection H3 as <-. reflexivity.
Defined.

(** * Heads for tails *)

Lemma stats_step_swap x c :
  is_outcome x ->
  stats_step (other_outcome x) (swap_counters c) = swap_counters (stats_step x c).
Proof. intros [-> | ->]; reflexivity. Qed.

Lemma scan_swap l : forall c,
  Forall is_outcome l ->
  scan (swap_counters c) (other_outcome <$> l) = swap_counters (scan c l).
Proof.
  induction l as [|x l IH]; intros c Hl; [done|].
  apply Forall_cons in Hl as [Hx Hl]. cbn [fmap list_fmap].
  rewrite !scan_cons, stats_step_swap by done. by apply IH.
Qed.

(** X9: the scan of [statistics] treats the two outcomes alike: turning
    every head of a buffer into a tail and every tail into a head exchanges
    the totals and the sequence counts, and nothing else. *)
Theorem analysis_is_symmetric (buf : list Z) :
  Forall is_outcome buf ->
  analyze (other_outcome <$> buf) = swap_counters (analyze buf)
  /\ total_heads (analyze (other_outcome <$> buf)) = total_tails (analyze buf)
  /\ total_tails (analyze (other_outcome <$> buf)) = total_heads (analyze buf)
  /\ heads_sequences (analyze (other_outcome <$> buf)) = tails_sequences (analyze buf)
  /\ tails_sequences (analyze (other_outcome <$> buf)) = heads_sequences (analyze buf).
Proof.
  intros Hout.
  assert (H : analyze (other_outcome <$> buf) = swap_counters (analyze buf)).
  { unfold analyze. by rewrite <- scan_swap. }
  rewrite H. by repeat split.
Qed.

Lemma analysis_is_symmetric_witness :
  let buf := [0; 0; 0; 0; 0; 0; 1; 0] in
  analyze [1; 1; 1; 1; 1; 1; 0; 1] = swap_counters (analyze buf)
  /\ tails_sequences (analyze [1; 1; 1; 1; 1; 1; 0; 1]) = 1.
Proof.
  intros buf.
  assert (Hout : Forall is_outcome buf).
  { repeat (apply List.Forall_cons; [first [left; reflexivity | right; reflexivity]|]).
    apply List.Forall_nil. }
  destruct (analysis_is_symmetric buf Hout) as (H1 & _).
  split; [exact H1|reflexivity].
Defined.

(** * Option 1 of the menu *)

(** X10: whenever option 1 returns, a buffer has been generated: the test
    [num_flips > 0] of [main] never fails.  The last line printed is the
    success message with the new [num_flips], which lies in [1, 100000];
    [rand] has been called exactly [num_flips] times and [malloc] once.
    Otherwise option 1 exits on the failed allocation or waits for input
    for ever; in a session that keeps its invariant it has no undefined
    behaviour. *)
Theorem option_one_announces_count (w : world) :
  session_ok w ->
  post (dispatch 1 w)
    (fun _ w' =>
       1 <= num_flips w' <= 100000
       /\ (exists before, stdout w' = before ++ [success_message (num_flips w')])
       /\ Z.of_nat (rand_pos w') = Z.of_nat (rand_pos w) + num_flips w'
       /\ malloc_calls w' = S (malloc_calls w)
       /\ exists buf, holds_buffer w' buf)
    (fun s w' => s = EXIT_FAILURE /\ malloc_calls w' = S (malloc_calls w))
    (fun w' => same_session w w').
Proof.
  intros Hok.
  pose proof (get_valid_input_post MIN_FLIPS MAX_FLIPS (gen_header w)) as Hpost.
  destruct (get_valid_input MIN_FLIPS MAX_FLIPS (gen_header w))
    as [n w1| |w1| |] eqn:Hread; try done.
  - destruct Hpost as (Hn & k & ls & Hw1 & _).
    assert (Hio : io_only w w1).
    { rewrite Hw1. eapply io_only_trans; [apply gen_header_io|apply after_rejections_io]. }
    rewrite (dispatch_generate w n w1 Hread
               (pointer_ok_io _ _ Hio (session_ok_pointer_ok _ Hok))).
    destruct Hio as (ls' & new & ->).
    cbn [malloc_fails malloc_calls set_stdin set_stdout].
    destruct (malloc_fails w (malloc_calls w)); simpl.
    + by split.
    + unfold MIN_FLIPS, MAX_FLIPS in Hn. split; [done|]. split.
      { by eexists. }
      split; [lia|]. split; [done|].
      eexists. apply holds_buffer_announced. lia.
  - unfold dispatch. cbn [Z.eqb Pos.eqb]. unfold bind at 1.
    rewrite (generate_flips_spin w w1 Hread). simpl.
    destruct Hpost as (k & ->). by repeat split.
Qed.

Lemma option_one_announces_count_witness :
  let w := initial_world [Junk; Num 3 Blank; Blank] sample_rand (fun _ => false) in
  session_ok w
  /\ post (dispatch 1 w)
       (fun _ w' =>
          1 <= num_flips w' <= 100000
          /\ (exists before, stdout w' = before ++ [success_message (num_flips w')])
          /\ Z.of_nat (rand_pos w') = Z.of_nat (rand_pos w) + num_flips w'
          /\ malloc_calls w' = S (malloc_calls w)
          /\ exists buf, holds_buffer w' buf)
       (fun s w' => s = EXIT_FAILURE /\ malloc_calls w' = S (malloc_calls w))
       (fun w' => same_session w w').
Proof.
  intros w.
  assert (Hok : session_ok w) by (left; split; reflexivity).
  split; [exact Hok|exact (option_one_announces_count w Hok)].
Defined.
